(** * Folder-structure viewer: folder scan, path flattening, spreadsheet lookup

    A shallow embedding of [src/__main__.py]:

    - [get_folder_structure] / [build_structure] (the directory walk),
    - [traverse_structure] (the flattening done by
      [FolderComboBox.populate_combobox]),
    - [ExcelSheetSelector.check_and_display_excel_file] (the spreadsheet
      lookup of the selected folder).

    Python [str] values are [string]s (their UTF-8 bytes), a [dict] is an
    association list in insertion order, and the operating system, the
    spreadsheet library and the widget toolkit are records of oracles. *)

From Stdlib Require Import String Ascii Arith Lia Bool List.
Import ListNotations.
Open Scope string_scope.
Open Scope list_scope.
Set Warnings "-register-all".

(* ================================================================== *)
(** ** Python strings *)

(** [str.startswith]: [startswith s pre] is [s.startswith(pre)]. *)
Fixpoint startswith (s pre : string) {struct pre} : bool :=
  match pre, s with
  | EmptyString, _ => true
  | String a pre', String b s' => Ascii.eqb a b && startswith s' pre'
  | String _ _, EmptyString => false
  end.

(** [str.endswith]: [endswith s suf] is [s.endswith(suf)]; some tail of
    [s] is [suf]. *)
Fixpoint endswith (s suf : string) : bool :=
  if String.eqb s suf then true
  else match s with
       | EmptyString => false
       | String _ s' => endswith s' suf
       end.

(** [posixpath.join(path, b)] of the Python standard library, for two
    components: an absolute [b] (or an empty [path]) discards [path],
    otherwise the components are glued with exactly one separator. *)
Definition posix_join (path b : string) : string :=
  if startswith b "/" || String.eqb path "" then b
  else if endswith path "/" then (path ++ b)%string
  else (path ++ "/" ++ b)%string.

(* ================================================================== *)
(** ** The folder tree and its flattening *)

(** [Dict[str, Dict]]: a mapping from folder name to the mapping of its
    sub-folders, kept in insertion order. *)
Inductive FolderTree : Type :=
| Node (entries : list (string * FolderTree)).

Definition entries_of (structure : FolderTree) : list (string * FolderTree) :=
  match structure with Node entries => entries end.

(** [dict.__setitem__]: an existing key keeps its place and gets the new
    value, a new key goes last. *)
Fixpoint dict_set {V : Type} (d : list (string * V)) (k : string) (v : V)
  : list (string * V) :=
  match d with
  | [] => [(k, v)]
  | (k', v') :: rest =>
      if String.eqb k' k then (k, v) :: rest else (k', v') :: dict_set rest k v
  end.

Definition dict_keys {V : Type} (d : list (string * V)) : list string :=
  map fst d.

(** The number of folders a tree holds, the implicit root not counted. *)
Fixpoint count_dirs (structure : FolderTree) : nat :=
  match structure with
  | Node entries =>
      list_sum (map (fun entry => S (count_dirs (snd entry))) entries)
  end.

Section Flatten.

(** [os.path.join] of the host platform, for two components. *)
Variable join : string -> string -> string.

(** [populate_combobox.traverse_structure]: the loop over
    [structure.items()] appends the folder's full path to [items] and
    then extends [items] with the flattening of the sub-mapping. *)
Fixpoint traverse_structure (structure : FolderTree) (parent_path : string)
  : list string :=
  match structure with
  | Node entries =>
      fold_left
        (fun items entry =>
           let full_path := join parent_path (fst entry) in
           (items ++ [full_path])
             ++ traverse_structure (snd entry) full_path)
        entries []
  end.

(** What one turn of the loop adds to [items]. *)
Definition emitted_block (parent_path : string) (entry : string * FolderTree)
  : list string :=
  join parent_path (fst entry)
    :: traverse_structure (snd entry) (join parent_path (fst entry)).

(** The folder at a position of the tree, with its full path. A position
    is the list of child indices leading to the folder: [[i]] is the
    [i]-th key of the mapping, [i :: rest] is position [rest] below it. *)
Fixpoint locate (structure : FolderTree) (parent_path : string)
    (pos : list nat) : option (string * FolderTree) :=
  match pos with
  | [] => None
  | i :: rest =>
      match nth_error (entries_of structure) i with
      | None => None
      | Some entry =>
          let full_path := join parent_path (fst entry) in
          match rest with
          | [] => Some (full_path, snd entry)
          | _ :: _ => locate (snd entry) full_path rest
          end
      end
  end.

End Flatten.

(** The folders emitted by the loop before it reaches the [i]-th key. *)
Definition emitted_before (structure : FolderTree) (i : nat) : nat :=
  list_sum
    (map (fun entry => S (count_dirs (snd entry)))
         (firstn i (entries_of structure))).

(** The index in the flattened list at which the folder at a position is
    emitted. *)
Fixpoint emit_index (structure : FolderTree) (pos : list nat) : option nat :=
  match pos with
  | [] => None
  | i :: rest =>
      match nth_error (entries_of structure) i with
      | None => None
      | Some entry =>
          match rest with
          | [] => Some (emitted_before structure i)
          | _ :: _ =>
              option_map (fun k => emitted_before structure i + 1 + k)
                         (emit_index (snd entry) rest)
          end
      end
  end.

(** The tree [{"A": {"B": {}}, "C": {}}]. *)
Definition tree_A_B_C : FolderTree :=
  Node [("A", Node [("B", Node [])]); ("C", Node [])].

(* ================================================================== *)
(** ** Exceptions and the monad of effectful code *)

(** The Python exceptions that cross the modelled functions. *)
Inductive exn : Type :=
| ValueError (msg : string)
| FileNotFoundError (filename : string)
| NotADirectoryError (filename : string)
| PermissionError (filename : string)
| InvalidFileException (filename : string)
| TclError (msg : string)
| OSError (filename : string).

(** How a call ends: it returns a value or an exception leaves it. *)
Inductive outcome (E A : Type) : Type :=
| Returned (a : A)
| Raised (e : E).
Arguments Returned {E A} a.
Arguments Raised {E A} e.

(** A computation over a state [S] that may raise an [E]; what was done
    to the state before a raise stays done. *)
Definition M (S E A : Type) : Type := S -> outcome E A * S.

Definition ret {S E A : Type} (a : A) : M S E A :=
  fun s => (Returned a, s).

Definition raise {S E A : Type} (e : E) : M S E A :=
  fun s => (Raised e, s).

Definition bind {S E A B : Type} (m : M S E A) (k : A -> M S E B) : M S E B :=
  fun s =>
    match m s with
    | (Returned a, s') => k a s'
    | (Raised e, s') => (Raised e, s')
    end.

Definition get {S E : Type} : M S E S :=
  fun s => (Returned s, s).

Definition modify {S E : Type} (f : S -> S) : M S E unit :=
  fun s => (Returned tt, f s).

(** An oracle's answer brought into the computation. *)
Definition lift {S E A : Type} (o : outcome E A) : M S E A :=
  fun s => (o, s).

Declare Scope py_scope.
Delimit Scope py_scope with py.
Notation "x <- m ;; k" := (bind m (fun x => k))
  (at level 100, m at next level, right associativity) : py_scope.
Notation "m ;; k" := (bind m (fun _ => k))
  (at level 100, right associativity) : py_scope.
Open Scope py_scope.

(* ================================================================== *)
(** ** The directory walk *)

(** An [os.DirEntry] as [os.scandir] yields it. [entry.is_dir()] follows
    symbolic links and may raise [OSError] (a link that loops, a target
    that may not be examined). *)
Record DirEntry : Type := {
  entry_name : string;                (* entry.name *)
  entry_path : string;                (* entry.path *)
  entry_is_dir : outcome exn bool     (* entry.is_dir() *)
}.

(** [entry.is_dir()] returns, *)
Definition is_dir_answers (entry : DirEntry) : bool :=
  match entry_is_dir entry with
  | Returned _ => true
  | Raised _ => false
  end.

(** and it returns [True]. *)
Definition is_directory (entry : DirEntry) : bool :=
  match entry_is_dir entry with
  | Returned is_dir => is_dir
  | Raised _ => false
  end.

(** The file system as the walk sees it. *)
Record FileSystem : Type := {
  os_path_exists : string -> bool;
  os_scandir : string -> outcome exn (list DirEntry)
}.

(** The file-system calls a walk makes, oldest first. *)
Inductive syscall : Type :=
| SysExists (path : string)
| SysScandir (path : string).

(** A walk that does not return ends by an exception of the modelled
    calls or by using up the recursion depth granted to it. *)
Inductive scan_error : Type :=
| PyExn (e : exn)
| DepthExhausted.

Definition Scan (A : Type) : Type := M (list syscall) scan_error A.

Definition log (c : syscall) : Scan unit :=
  modify (fun calls => calls ++ [c]).

Definition lift_os {A : Type} (o : outcome exn A) : Scan A :=
  match o with
  | Returned a => ret a
  | Raised e => raise (PyExn e)
  end.

(** The message of the [ValueError] raised for a missing root, before the
    path is formatted into it. *)
Definition not_found_prefix : string :=
  "指定されたパスが存在しません: ".

Section Walk.

Variable fs : FileSystem.

(** The [for entry in os.scandir(path)] loop of [build_structure], over
    the entries still to come and the [structure] built so far;
    [recurse] is the recursive call. *)
Fixpoint scan_entries (recurse : string -> Scan FolderTree)
    (entries : list DirEntry) (structure : list (string * FolderTree))
  : Scan (list (string * FolderTree)) :=
  match entries with
  | [] => ret structure
  | entry :: rest =>
      is_dir <- lift_os (entry_is_dir entry) ;;
      if (is_dir : bool) then
        sub <- recurse (entry_path entry) ;;
        scan_entries recurse rest (dict_set structure (entry_name entry) sub)
      else scan_entries recurse rest structure
  end.

(** [get_folder_structure.build_structure]; [depth] bounds the nesting
    of the recursive calls, as the interpreter's recursion limit does. *)
Fixpoint build_structure (depth : nat) (path : string) : Scan FolderTree :=
  match depth with
  | O => raise DepthExhausted
  | S depth' =>
      log (SysScandir path) ;;
      entries <- lift_os (os_scandir fs path) ;;
      structure <- scan_entries (build_structure depth') entries [] ;;
      ret (Node structure)
  end.

(** [get_folder_structure]. *)
Definition get_folder_structure (depth : nat) (root_path : string)
  : Scan FolderTree :=
  log (SysExists root_path) ;;
  if negb (os_path_exists fs root_path) then
    raise (PyExn (ValueError (not_found_prefix ++ root_path)%string))
  else build_structure depth root_path.

(** Every directory met by a walk from [path] can be listed,
    [entry.is_dir()] returns for every entry met, and the nesting of
    directories below [path] is less than [depth]. *)
Fixpoint walkable (depth : nat) (path : string) : bool :=
  match depth with
  | O => false
  | S depth' =>
      match os_scandir fs path with
      | Raised _ => false
      | Returned entries =>
          forallb
            (fun entry =>
               is_dir_answers entry
               && (negb (is_directory entry)
                   || walkable depth' (entry_path entry)))
            entries
      end
  end.

(** The keys of the mapping are the names of the directories among
    [entries]: every directory has its key, and nothing else has one. *)
Definition keys_are_dirs (entries : list DirEntry)
    (items : list (string * FolderTree)) : Prop :=
  forall name,
    In name (dict_keys items)
    <-> exists entry,
          In entry entries /\ is_directory entry = true
          /\ entry_name entry = name.

(** [mirrors path structure]: the mapping holds a key for exactly the
    entries of [path] that are directories, it is empty when [path] has
    no sub-directory, and the value under the key of a directory entry
    mirrors that directory in turn. *)
Fixpoint mirrors (path : string) (structure : FolderTree) : Prop :=
  match structure with
  | Node items =>
      exists entries,
        os_scandir fs path = Returned entries
        /\ keys_are_dirs entries items
        /\ (existsb is_directory entries = false -> items = [])
        /\ (fix each (l : list (string * FolderTree)) : Prop :=
              match l with
              | [] => True
              | item :: l' =>
                  (exists entry,
                      In entry entries /\ is_directory entry = true
                      /\ entry_name entry = fst item
                      /\ mirrors (entry_path entry) (snd item))
                  /\ each l'
              end) items
  end.

(** A directory entry of [entries] stands behind an item of the mapping. *)
Definition recorded_from (entries : list DirEntry)
    (item : string * FolderTree) : Prop :=
  exists entry,
    In entry entries /\ is_directory entry = true
    /\ entry_name entry = fst item
    /\ mirrors (entry_path entry) (snd item).

End Walk.

(** A small file system: [/data] holds the folders [a] and [b] and a
    file; [a] holds the folder [x] and a spreadsheet; [b] holds a file. *)
Definition fs_data : FileSystem := {|
  os_path_exists path :=
    existsb (String.eqb path)
            ["/data"; "/data/a"; "/data/a/x"; "/data/b"; "/data/notes.txt";
             "/data/a/report.xlsx"; "/data/b/readme.md"];
  os_scandir path :=
    if String.eqb path "/data" then
      Returned [ {| entry_name := "a"; entry_path := "/data/a";
                    entry_is_dir := Returned true |};
                 {| entry_name := "notes.txt"; entry_path := "/data/notes.txt";
                    entry_is_dir := Returned false |};
                 {| entry_name := "b"; entry_path := "/data/b";
                    entry_is_dir := Returned true |} ]
    else if String.eqb path "/data/a" then
      Returned [ {| entry_name := "x"; entry_path := "/data/a/x";
                    entry_is_dir := Returned true |};
                 {| entry_name := "report.xlsx";
                    entry_path := "/data/a/report.xlsx";
                    entry_is_dir := Returned false |} ]
    else if String.eqb path "/data/a/x" then Returned []
    else if String.eqb path "/data/b" then
      Returned [ {| entry_name := "readme.md"; entry_path := "/data/b/readme.md";
                    entry_is_dir := Returned false |} ]
    else if String.eqb path "/data/notes.txt" then
      Raised (NotADirectoryError path)
    else Raised (FileNotFoundError path)
|}.

(** A file system in which [/srv] can be listed and its sub-folder
    [private] cannot. *)
Definition fs_locked : FileSystem := {|
  os_path_exists path :=
    existsb (String.eqb path) ["/srv"; "/srv/private"; "/srv/a.txt"];
  os_scandir path :=
    if String.eqb path "/srv" then
      Returned [ {| entry_name := "private"; entry_path := "/srv/private";
                    entry_is_dir := Returned true |};
                 {| entry_name := "a.txt"; entry_path := "/srv/a.txt";
                    entry_is_dir := Returned false |} ]
    else if String.eqb path "/srv/private" then
      Raised (PermissionError path)
    else Raised (FileNotFoundError path)
|}.

(* ================================================================== *)
(** ** The spreadsheet lookup of [ExcelSheetSelector] *)

(** An [openpyxl] workbook, as far as the program reads it. *)
Record Workbook : Type := {
  sheetnames : list string
}.

(** What the lookup does outside the process, oldest first. *)
Inductive event : Type :=
| Listdir (path : string)
| LoadWorkbook (path : string) (read_only : bool)
| CloseWorkbook (path : string).

(** The widget commands the lookup issues. *)
Inductive tk_command : Type :=
| LabelConfigText (text : string)      (* excel_file_label.config(text=...) *)
| ComboSetValues (values : list string) (* sheet_combobox["values"] = ... *)
| ComboCurrent (index : nat)           (* sheet_combobox.current(index) *)
| ComboSet (text : string).            (* sheet_combobox.set(text) *)

(** The collaborators of the lookup: the directory listing, the
    spreadsheet library and the widget toolkit, the last as the exception
    a command meets, if any. *)
Record Host : Type := {
  os_listdir : string -> outcome exn (list string);
  load_workbook : string -> outcome exn Workbook;
  tcl_error : tk_command -> option exn
}.

(** The attributes of an [ExcelSheetSelector] and what its two widgets
    show. *)
Record ExcelSheetSelector : Type := {
  folder_path : option string;        (* self.folder_path *)
  excel_file_label : string;          (* the label's text *)
  sheet_values : list string;         (* the combobox's values *)
  sheet_text : string                 (* the combobox's shown text *)
}.

(** The selector together with the record of what was done outside. *)
Record Process : Type := {
  selector : ExcelSheetSelector;
  events : list event
}.

Definition Gui (A : Type) : Type := M Process exn A.

Definition emit (e : event) : Gui unit :=
  modify (fun p => {| selector := selector p; events := events p ++ [e] |}).

Definition update_selector (f : ExcelSheetSelector -> ExcelSheetSelector)
  : Gui unit :=
  modify (fun p => {| selector := f (selector p); events := events p |}).

(** The effect of a widget command that the toolkit carries out. *)
Definition run_command (c : tk_command) (w : ExcelSheetSelector)
  : ExcelSheetSelector :=
  match c with
  | LabelConfigText text =>
      {| folder_path := folder_path w; excel_file_label := text;
         sheet_values := sheet_values w; sheet_text := sheet_text w |}
  | ComboSetValues values =>
      {| folder_path := folder_path w; excel_file_label := excel_file_label w;
         sheet_values := values; sheet_text := sheet_text w |}
  | ComboCurrent index =>
      {| folder_path := folder_path w; excel_file_label := excel_file_label w;
         sheet_values := sheet_values w;
         sheet_text := nth index (sheet_values w) (sheet_text w) |}
  | ComboSet text =>
      {| folder_path := folder_path w; excel_file_label := excel_file_label w;
         sheet_values := sheet_values w; sheet_text := text |}
  end.

(** The workbooks loaded and not closed since, by the path they were
    loaded from. *)
Fixpoint open_workbooks (evs : list event) (opened : list string)
  : list string :=
  match evs with
  | [] => opened
  | LoadWorkbook path _ :: evs' => open_workbooks evs' (opened ++ [path])
  | CloseWorkbook path :: evs' =>
      open_workbooks evs' (remove string_dec path opened)
  | Listdir _ :: evs' => open_workbooks evs' opened
  end.

(** Whether every workbook on record was loaded read-only. *)
Definition loads_read_only (evs : list event) : bool :=
  forallb
    (fun e => match e with LoadWorkbook _ read_only => read_only | _ => true end)
    evs.

(** The test of the list comprehension:
    [f.endswith(".xlsx") and not f.startswith("~$")]. *)
Definition qualifies (f : string) : bool :=
  endswith f ".xlsx" && negb (startswith f "~$").

Definition placeholder_text : string := "Excel File: None (or multiple files)".

(** A file name with the spreadsheet extension and without the lock-file
    marker, in the words of the specification: it is some stem followed
    by [.xlsx], and it is not [~$] followed by anything. *)
Definition spreadsheet_name (name : string) : Prop :=
  (exists stem, name = (stem ++ ".xlsx")%string)
  /\ ~ (exists rest, name = ("~$" ++ rest)%string).

(** The selector shows that no file was selected. *)
Definition no_selection (w : ExcelSheetSelector) : Prop :=
  excel_file_label w = placeholder_text
  /\ sheet_values w = []
  /\ sheet_text w = "".

Section Lookup.

Variable host : Host.
(** [os.path.join] of the host platform, for two components. *)
Variable join : string -> string -> string.

(** A widget command: the toolkit may refuse it, and it refuses
    [current(index)] when the combobox has no value at [index]. *)
Definition tk (c : tk_command) : Gui unit :=
  match tcl_error host c with
  | Some e => raise e
  | None =>
      p <- get ;;
      match c with
      | ComboCurrent index =>
          if Nat.ltb index (length (sheet_values (selector p)))
          then update_selector (run_command c)
          else raise (TclError "index out of range")
      | _ => update_selector (run_command c)
      end
  end.

(** [os.listdir(path)]. *)
Definition listdir (path : string) : Gui (list string) :=
  emit (Listdir path) ;; lift (os_listdir host path).

(** [openpyxl.load_workbook(path, read_only=read_only)]: a workbook is
    on record as loaded only when the call returns one. *)
Definition open_workbook (path : string) (read_only : bool) : Gui Workbook :=
  workbook <- lift (load_workbook host path) ;;
  emit (LoadWorkbook path read_only) ;;
  ret workbook.

(** [workbook.close()]. *)
Definition close_workbook (path : string) : Gui unit :=
  emit (CloseWorkbook path).

(** The list comprehension building [excel_files]. *)
Definition excel_files_in (names : list string) : list string :=
  filter qualifies names.

(** [ExcelSheetSelector.check_and_display_excel_file]. The guard
    [if not self.folder_path] is taken for [None] and for the empty
    string; [len(excel_files) == 1] with [excel_files[0]] is the match on
    a one-element list. *)
Definition check_and_display_excel_file : Gui unit :=
  p <- get ;;
  match folder_path (selector p) with
  | None => ret tt
  | Some "" => ret tt
  | Some folder =>
      names <- listdir folder ;;
      match excel_files_in names with
      | [excel_file] =>
          tk (LabelConfigText ("Excel File: " ++ excel_file)%string) ;;
          let file_path := join folder excel_file in
          workbook <- open_workbook file_path true ;;
          tk (ComboSetValues (sheetnames workbook)) ;;
          match sheetnames workbook with
          | [] => ret tt
          | _ :: _ => tk (ComboCurrent 0)
          end ;;
          close_workbook file_path
      | _ =>
          tk (LabelConfigText placeholder_text) ;;
          tk (ComboSetValues []) ;;
          tk (ComboSet "")
      end
  end.

End Lookup.

(** A file system in which [/mnt] can be listed and holds a folder and a
    symbolic link that loops, on which [is_dir()] raises. *)
Definition fs_loop : FileSystem := {|
  os_path_exists path :=
    existsb (String.eqb path) ["/mnt"; "/mnt/disk"];
  os_scandir path :=
    if String.eqb path "/mnt" then
      Returned [ {| entry_name := "disk"; entry_path := "/mnt/disk";
                    entry_is_dir := Returned true |};
                 {| entry_name := "self"; entry_path := "/mnt/self";
                    entry_is_dir := Raised (OSError "/mnt/self") |} ]
    else if String.eqb path "/mnt/disk" then Returned []
    else Raised (FileNotFoundError path)
|}.

(** A file system in which [/mnt] lists a file, a looping symbolic link
    and a folder, in that order. *)
Definition fs_loop_first : FileSystem := {|
  os_path_exists path :=
    existsb (String.eqb path) ["/mnt"; "/mnt/disk"; "/mnt/notes.txt"];
  os_scandir path :=
    if String.eqb path "/mnt" then
      Returned [ {| entry_name := "notes.txt"; entry_path := "/mnt/notes.txt";
                    entry_is_dir := Returned false |};
                 {| entry_name := "self"; entry_path := "/mnt/self";
                    entry_is_dir := Raised (OSError "/mnt/self") |};
                 {| entry_name := "disk"; entry_path := "/mnt/disk";
                    entry_is_dir := Returned true |} ]
    else if String.eqb path "/mnt/disk" then Returned []
    else Raised (FileNotFoundError path)
|}.

(** The selector as [__init__] leaves it, with [folder_path] set. *)
Definition selector_at (folder : option string) : ExcelSheetSelector := {|
  folder_path := folder;
  excel_file_label := "Excel File:";
  sheet_values := [];
  sheet_text := ""
|}.

Definition process_at (folder : option string) : Process :=
  {| selector := selector_at folder; events := [] |}.

(** A host whose folder [/data/a] holds one spreadsheet, its lock file
    and a text file, whose folder [/data/b] holds no spreadsheet, whose
    folder [/data/c] holds two and whose folder [/data/d] holds one that
    the spreadsheet library cannot read; no other folder exists. [tcl]
    says which widget commands fail. *)
Definition host_data (tcl : tk_command -> option exn) : Host := {|
  os_listdir path :=
    if String.eqb path "/data/a" then
      Returned ["report.xlsx"; "~$report.xlsx"; "notes.txt"]
    else if String.eqb path "/data/b" then Returned ["readme.md"]
    else if String.eqb path "/data/c" then Returned ["q1.xlsx"; "q2.xlsx"]
    else if String.eqb path "/data/d" then Returned ["broken.xlsx"]
    else Raised (FileNotFoundError path);
  load_workbook path :=
    if String.eqb path "/data/a/report.xlsx" then
      Returned {| sheetnames := ["Summary"; "Data"] |}
    else Raised (InvalidFileException path);
  tcl_error := tcl
|}.

(** The toolkit carries out every command. *)
Definition tcl_ok (c : tk_command) : option exn := None.

(** The combobox is gone: setting its values fails. *)
Definition tcl_combobox_gone (c : tk_command) : option exn :=
  match c with
  | ComboSetValues _ => Some (TclError "invalid command name")
  | _ => None
  end.

(* ================================================================== *)
(** ** What a directory listing guarantees *)

(** No name occurs twice. *)
Fixpoint distinct_names (names : list string) : bool :=
  match names with
  | [] => true
  | name :: rest => negb (existsb (String.eqb name) rest) && distinct_names rest
  end.

Section Coherent.

Variable fs : FileSystem.
Variable join : string -> string -> string.

(** The listings met by a walk from [path] are those of a file system:
    each can be read, [entry.is_dir()] returns for every entry, no two
    sub-directories of a directory share a name, and [entry.path] is
    [os.path.join] of the listed path and [entry.name]; the nesting
    below [path] is less than [depth]. *)
Fixpoint coherent (depth : nat) (path : string) : bool :=
  match depth with
  | O => false
  | S depth' =>
      match os_scandir fs path with
      | Raised _ => false
      | Returned entries =>
          distinct_names (map entry_name (filter is_directory entries))
          && forallb
               (fun entry =>
                  is_dir_answers entry
                  && String.eqb (entry_path entry)
                                (join path (entry_name entry))
                  && (negb (is_directory entry)
                      || coherent depth' (entry_path entry)))
               entries
      end
  end.

(** The hierarchy below [path], read off the listings: one key per
    sub-directory, in the order of the listing. *)
Fixpoint tree_of (depth : nat) (path : string) : FolderTree :=
  match depth with
  | O => Node []
  | S depth' =>
      match os_scandir fs path with
      | Raised _ => Node []
      | Returned entries =>
          Node (map (fun entry =>
                       (entry_name entry, tree_of depth' (entry_path entry)))
                    (filter is_directory entries))
      end
  end.

(** The sub-directories of a listing as items of the mapping. *)
Definition items_of (depth : nat) (entries : list DirEntry)
  : list (string * FolderTree) :=
  map (fun entry => (entry_name entry, tree_of depth (entry_path entry)))
      (filter is_directory entries).

End Coherent.

(* ================================================================== *)
(** ** Folder names *)

(** The string holds the POSIX separator. *)
Fixpoint has_sep (s : string) : bool :=
  match s with
  | EmptyString => false
  | String a s' => Ascii.eqb a "/" || has_sep s'
  end.

(** A name a directory entry can have: not empty, no separator in it. *)
Definition valid_name (name : string) : bool :=
  negb (String.eqb name "") && negb (has_sep name).

(** Every key of the tree, at every depth, passes the test. *)
Fixpoint all_names (test : string -> bool) (structure : FolderTree) : bool :=
  match structure with
  | Node entries =>
      forallb (fun entry => test (fst entry) && all_names test (snd entry))
              entries
  end.

(** The keys of every mapping of the tree are distinct, as the keys of a
    [dict] are. *)
Fixpoint unique_keys (structure : FolderTree) : bool :=
  match structure with
  | Node entries =>
      distinct_names (dict_keys entries)
      && forallb (fun entry => unique_keys (snd entry)) entries
  end.

(** What [posixpath.join] puts before a relative second component. *)
Definition join_base (path : string) : string :=
  if String.eqb path "" then ""
  else if endswith path "/" then path
  else (path ++ "/")%string.

(** What follows a name in a path: nothing, or a separator and more. *)
Definition path_tail (x : string) : Prop :=
  x = "" \/ exists rest, x = ("/" ++ rest)%string.

(* ================================================================== *)
(** ** [str.strip] *)

(** The characters [str.isspace] accepts, by their UTF-8 encoding: the
    one-byte ones (U+0009..U+000D, U+001C..U+0020), *)
Definition is_space1 (a : ascii) : bool :=
  let n := nat_of_ascii a in
  (Nat.leb 9 n && Nat.leb n 13) || (Nat.leb 28 n && Nat.leb n 32).

(** the two-byte ones (U+0085, U+00A0), *)
Definition is_space2 (a b : ascii) : bool :=
  Nat.eqb (nat_of_ascii a) 194
  && (Nat.eqb (nat_of_ascii b) 133 || Nat.eqb (nat_of_ascii b) 160).

(** and the three-byte ones (U+1680, U+2000..U+200A, U+2028, U+2029,
    U+202F, U+205F, U+3000). *)
Definition is_space3 (a b c : ascii) : bool :=
  let x := nat_of_ascii a in
  let y := nat_of_ascii b in
  let z := nat_of_ascii c in
  (Nat.eqb x 225 && Nat.eqb y 154 && Nat.eqb z 128)
  || (Nat.eqb x 226 && Nat.eqb y 128
      && ((Nat.leb 128 z && Nat.leb z 138)
          || Nat.eqb z 168 || Nat.eqb z 169 || Nat.eqb z 175))
  || (Nat.eqb x 226 && Nat.eqb y 129 && Nat.eqb z 159)
  || (Nat.eqb x 227 && Nat.eqb y 128 && Nat.eqb z 128).

(** The number of bytes of the white-space character the bytes start
    with, 0 when they start with none. The bytes are read front to back
    when [forward], and back to front (for the end of a string taken in
    reverse) otherwise. *)
Definition space_width (forward : bool) (l : list ascii) : nat :=
  match l with
  | [] => 0
  | a :: l1 =>
      if is_space1 a then 1
      else match l1 with
           | [] => 0
           | b :: l2 =>
               if (if forward then is_space2 a b else is_space2 b a) then 2
               else match l2 with
                    | [] => 0
                    | c :: _ =>
                        if (if forward then is_space3 a b c
                            else is_space3 c b a)
                        then 3 else 0
                    end
           end
  end.

(** White-space characters dropped from the front. *)
Fixpoint drop_spaces (forward : bool) (l : list ascii) : list ascii :=
  match l with
  | [] => []
  | a :: l1 =>
      if is_space1 a then drop_spaces forward l1
      else match l1 with
           | [] => l
           | b :: l2 =>
               if (if forward then is_space2 a b else is_space2 b a)
               then drop_spaces forward l2
               else match l2 with
                    | [] => l
                    | c :: l3 =>
                        if (if forward then is_space3 a b c
                            else is_space3 c b a)
                        then drop_spaces forward l3 else l
                    end
           end
  end.

(** [s.strip()]: white space dropped from both ends. *)
Definition py_strip (s : string) : string :=
  string_of_list_ascii
    (rev (drop_spaces false
            (rev (drop_spaces true (list_ascii_of_string s))))).

(* ================================================================== *)
(** ** The widgets around the scan and the lookup *)

(** A [FolderComboBox]: its two attributes and what its combobox holds. *)
Record FolderComboBox : Type := {
  combo_structure : FolderTree;     (* self.folder_structure *)
  combo_root_path : string;         (* self.root_path *)
  combo_values : list string;       (* self.combobox["values"] *)
  combo_text : string               (* self.combobox.get() *)
}.

(** The [MainApp] window: its two frames. *)
Record MainApp : Type := {
  folder_combobox : FolderComboBox;
  excel_selector : Process
}.

(** The root folder [MainApp.__init__] scans: the raw string literal
    [r"C:\\work\\output"], both backslashes of each pair kept. *)
Definition root_folder : string := "C:\\work\\output".

Section App.

Variable fs : FileSystem.
Variable host : Host.
(** [os.path.join] of the host platform, for two components. *)
Variable join : string -> string -> string.
(** [str.strip]. *)
Variable strip : string -> string.
(** [os.path.isdir]. *)
Variable os_path_isdir : string -> bool.

(** [FolderComboBox.populate_combobox]. *)
Definition populate_combobox (w : FolderComboBox) : FolderComboBox :=
  let folder_items :=
    traverse_structure join (combo_structure w) (combo_root_path w) in
  {| combo_structure := combo_structure w;
     combo_root_path := combo_root_path w;
     combo_values := folder_items;
     combo_text := combo_text w |}.

(** [FolderComboBox.__init__]: a read-only combobox showing nothing, the
    two attributes stored, then [populate_combobox]. *)
Definition FolderComboBox_init (folder_structure : FolderTree)
    (root : string) : FolderComboBox :=
  populate_combobox
    {| combo_structure := folder_structure;
       combo_root_path := root;
       combo_values := [];
       combo_text := "" |}.

(** [MainApp.__init__], as far as its data goes: the scan of the root
    folder, the folder combobox built from its result, the selector as
    [ExcelSheetSelector.__init__] leaves it. *)
Definition MainApp_init (depth : nat) : Scan MainApp :=
  folder_structure <- get_folder_structure fs depth root_folder ;;
  ret {| folder_combobox := FolderComboBox_init folder_structure root_folder;
         excel_selector := process_at None |}.

(** The user picks the entry at [index] of the read-only folder
    combobox. *)
Definition pick_folder (index : nat) (app : MainApp) : MainApp :=
  {| folder_combobox :=
       {| combo_structure := combo_structure (folder_combobox app);
          combo_root_path := combo_root_path (folder_combobox app);
          combo_values := combo_values (folder_combobox app);
          combo_text :=
            nth index (combo_values (folder_combobox app))
                (combo_text (folder_combobox app)) |};
     excel_selector := excel_selector app |}.

(** [ExcelSheetSelector.update_folder]. *)
Definition update_folder (path : string) : Gui unit :=
  update_selector
    (fun w => {| folder_path := Some (strip path);
                 excel_file_label := excel_file_label w;
                 sheet_values := sheet_values w;
                 sheet_text := sheet_text w |}) ;;
  check_and_display_excel_file host join.

(** [MainApp.on_folder_selected]. *)
Definition on_folder_selected (app : MainApp) : outcome exn unit * MainApp :=
  let selected_folder := strip (combo_text (folder_combobox app)) in
  if os_path_isdir selected_folder then
    let (result, selector') := update_folder selected_folder (excel_selector app) in
    (result, {| folder_combobox := folder_combobox app;
                excel_selector := selector' |})
  else (Returned tt, app).

End App.

(** A file system holding the root folder of the program with the
    folders [in] and [out] and, under [in], the folder [2024]; paths are
    joined as [posixpath.join] does. *)
Definition fs_work : FileSystem := {|
  os_path_exists path :=
    existsb (String.eqb path)
            ["C:\\work\\output"; "C:\\work\\output/in";
             "C:\\work\\output/in/2024"; "C:\\work\\output/out";
             "C:\\work\\output/log.txt"];
  os_scandir path :=
    if String.eqb path "C:\\work\\output" then
      Returned [ {| entry_name := "in"; entry_path := "C:\\work\\output/in";
                    entry_is_dir := Returned true |};
                 {| entry_name := "log.txt";
                    entry_path := "C:\\work\\output/log.txt";
                    entry_is_dir := Returned false |};
                 {| entry_name := "out"; entry_path := "C:\\work\\output/out";
                    entry_is_dir := Returned true |} ]
    else if String.eqb path "C:\\work\\output/in" then
      Returned [ {| entry_name := "2024";
                    entry_path := "C:\\work\\output/in/2024";
                    entry_is_dir := Returned true |} ]
    else if String.eqb path "C:\\work\\output/in/2024" then Returned []
    else if String.eqb path "C:\\work\\output/out" then Returned []
    else Raised (FileNotFoundError path)
|}.

(** [os.path.isdir] for the folders of [host_data]. *)
Definition isdir_data (path : string) : bool :=
  existsb (String.eqb path) ["/data/a"; "/data/b"; "/data/c"; "/data/d"].

(** A window whose folder combobox shows [text]. *)
Definition app_showing (text : string) : MainApp :=
  {| folder_combobox :=
       {| combo_structure := Node []; combo_root_path := "/data";
          combo_values := [text]; combo_text := text |};
     excel_selector := process_at None |}.

(* ================================================================== *)
(** * Properties *)

(** An index read off an equation between options. *)
Ltac some_inj H := cbn [option_map] in H; injection H as <-.

(** ** Lists and sums *)

Lemma list_sum_firstn_le (A : Type) (g : A -> nat) (l : list A) (a b : nat) (x : A) :
  a < b -> nth_error l a = Some x ->
  list_sum (map g (firstn a l)) + g x <= list_sum (map g (firstn b l)).
Proof.
  revert a b. induction l as [|y l IH]; intros a b Hab Hx.
  - destruct a; discriminate.
  - destruct b as [|b]; [lia|].
    destruct a as [|a]; simpl in *.
    + injection Hx as ->. lia.
    + specialize (IH a b ltac:(lia) Hx). lia.
Qed.

Lemma list_sum_firstn_total (A : Type) (g : A -> nat) (l : list A) (a : nat) (x : A) :
  nth_error l a = Some x ->
  list_sum (map g (firstn a l)) + g x <= list_sum (map g l).
Proof.
  intros Hx.
  assert (Hlt : a < length l) by (apply nth_error_Some; congruence).
  rewrite <- (firstn_all l) at 2.
  apply list_sum_firstn_le; assumption.
Qed.

Lemma length_flat_map (A B : Type) (f : A -> list B) (l : list A) :
  length (flat_map f l) = list_sum (map (fun x => length (f x)) l).
Proof.
  induction l as [|x l IH]; simpl; [reflexivity|].
  rewrite length_app, IH. reflexivity.
Qed.

Lemma nth_error_flat_map (A B : Type) (f : A -> list B) (l : list A) (i k : nat) (x : A) :
  nth_error l i = Some x -> k < length (f x) ->
  nth_error (flat_map f l)
            (list_sum (map (fun y => length (f y)) (firstn i l)) + k)
  = nth_error (f x) k.
Proof.
  revert i. induction l as [|y l IH]; intros i Hx Hk.
  - destruct i; discriminate.
  - destruct i as [|i]; simpl in *.
    + injection Hx as ->. apply nth_error_app1. assumption.
    + rewrite nth_error_app2 by lia.
      replace (length (f y) + list_sum (map (fun y0 => length (f y0)) (firstn i l))
               + k - length (f y))
        with (list_sum (map (fun y0 => length (f y0)) (firstn i l)) + k) by lia.
      apply IH; assumption.
Qed.

(** ** The folder tree *)

Lemma FolderTree_forall_ind (P : FolderTree -> Prop) :
  (forall entries, Forall (fun entry => P (snd entry)) entries -> P (Node entries)) ->
  forall structure, P structure.
Proof.
  intros step. fix IH 1. intros [entries]. apply step.
  induction entries as [|entry rest IHrest]; constructor.
  - apply IH.
  - exact IHrest.
Qed.

Lemma count_dirs_Node (entries : list (string * FolderTree)) :
  count_dirs (Node entries)
  = list_sum (map (fun entry => S (count_dirs (snd entry))) entries).
Proof. reflexivity. Qed.

Section FlattenFacts.

Variable join : string -> string -> string.

Lemma traverse_loop_flat_map (parent_path : string)
    (entries : list (string * FolderTree)) (items : list string) :
  fold_left
    (fun items entry =>
       (items ++ [join parent_path (fst entry)])
         ++ traverse_structure join (snd entry) (join parent_path (fst entry)))
    entries items
  = items ++ flat_map (emitted_block join parent_path) entries.
Proof.
  revert items. induction entries as [|entry rest IH]; intros items; simpl.
  - symmetry. apply app_nil_r.
  - rewrite IH. unfold emitted_block. rewrite <- !app_assoc. reflexivity.
Qed.

(** The loop emits the blocks of the keys one after the other. *)
Lemma traverse_structure_blocks (entries : list (string * FolderTree))
    (parent_path : string) :
  traverse_structure join (Node entries) parent_path
  = flat_map (emitted_block join parent_path) entries.
Proof.
  simpl. apply (traverse_loop_flat_map parent_path entries []).
Qed.

Lemma length_traverse_structure (structure : FolderTree) :
  forall parent_path,
    length (traverse_structure join structure parent_path) = count_dirs structure.
Proof.
  induction structure as [entries IH] using FolderTree_forall_ind.
  intros parent_path. rewrite traverse_structure_blocks, length_flat_map.
  simpl. f_equal.
  induction IH as [|entry rest Hentry _ IHrest]; simpl; [reflexivity|].
  rewrite Hentry, IHrest. reflexivity.
Qed.

Lemma length_emitted_block (parent_path : string) (entry : string * FolderTree) :
  length (emitted_block join parent_path entry) = S (count_dirs (snd entry)).
Proof.
  unfold emitted_block. simpl. rewrite length_traverse_structure. reflexivity.
Qed.

Lemma emitted_before_blocks (entries : list (string * FolderTree))
    (parent_path : string) (i : nat) :
  emitted_before (Node entries) i
  = list_sum (map (fun e => length (emitted_block join parent_path e))
                  (firstn i entries)).
Proof.
  unfold emitted_before. simpl. f_equal. apply map_ext.
  intros e. symmetry. apply length_emitted_block.
Qed.

End FlattenFacts.

(** ** Where a folder is emitted *)

Section EmitIndex.

Variable join : string -> string -> string.

(** The index computed for a position holds the path of the folder at
    that position. *)
Lemma emit_index_emitted (pos : list nat) :
  forall structure parent_path i,
    emit_index structure pos = Some i ->
    exists full_path sub,
      locate join structure parent_path pos = Some (full_path, sub)
      /\ nth_error (traverse_structure join structure parent_path) i
         = Some full_path.
Proof.
  induction pos as [|c rest IH]; intros [entries] parent_path i Hi.
  - discriminate.
  - rewrite traverse_structure_blocks.
    cbn [locate emit_index entries_of] in Hi |- *.
    destruct (nth_error entries c) as [entry|] eqn:Hc; [|discriminate].
    assert (Hblock : forall k, k < length (emitted_block join parent_path entry) ->
              nth_error (flat_map (emitted_block join parent_path) entries)
                        (emitted_before (Node entries) c + k)
              = nth_error (emitted_block join parent_path entry) k).
    { intros k Hk. rewrite (emitted_before_blocks join entries parent_path).
      apply nth_error_flat_map; assumption. }
    destruct rest as [|c' rest'].
    + injection Hi as <-.
      exists (join parent_path (fst entry)), (snd entry). split; [reflexivity|].
      rewrite <- (Nat.add_0_r (emitted_before _ _)).
      rewrite Hblock by (rewrite length_emitted_block; lia). reflexivity.
    + destruct (emit_index (snd entry) (c' :: rest')) as [k|] eqn:Hk;
        [|discriminate].
      injection Hi as <-.
      destruct (IH (snd entry) (join parent_path (fst entry)) k Hk)
        as (full_path & sub & Hloc & Hnth).
      exists full_path, sub. split; [exact Hloc|].
      assert (Hlt : k < count_dirs (snd entry)).
      { rewrite <- (length_traverse_structure join (snd entry)
                      (join parent_path (fst entry))).
        apply nth_error_Some. congruence. }
      replace (emitted_before (Node entries) c + 1 + k)
        with (emitted_before (Node entries) c + S k) by lia.
      rewrite Hblock by (rewrite length_emitted_block; lia).
      exact Hnth.
Qed.

End EmitIndex.

Lemma emit_index_bound (pos : list nat) :
  forall structure i,
    emit_index structure pos = Some i -> i < count_dirs structure.
Proof.
  induction pos as [|c rest IH]; intros [entries] i Hi.
  - discriminate.
  - cbn [emit_index entries_of] in Hi.
    destruct (nth_error entries c) as [entry|] eqn:Hc; [|discriminate].
    pose proof (list_sum_firstn_total _ (fun e => S (count_dirs (snd e)))
                  entries c entry Hc) as Hsum.
    cbv beta in Hsum. rewrite count_dirs_Node.
    unfold emitted_before in Hi. cbn [entries_of] in Hi.
    destruct rest as [|c' rest'].
    + some_inj Hi. lia.
    + destruct (emit_index (snd entry) (c' :: rest')) as [k|] eqn:Hk;
        [|discriminate].
      some_inj Hi. apply IH in Hk. lia.
Qed.

Lemma emit_index_deeper (structure : FolderTree) (c c' : nat) (rest : list nat) :
  emit_index structure (c :: c' :: rest)
  = match nth_error (entries_of structure) c with
    | None => None
    | Some entry =>
        option_map (fun k => emitted_before structure c + 1 + k)
                   (emit_index (snd entry) (c' :: rest))
    end.
Proof. reflexivity. Qed.

Lemma emit_index_child (structure : FolderTree) (c : nat) :
  emit_index structure [c]
  = match nth_error (entries_of structure) c with
    | None => None
    | Some _ => Some (emitted_before structure c)
    end.
Proof. reflexivity. Qed.

(** A position that goes on below key [c] has its index computed in the
    sub-mapping under that key. *)
Lemma emit_index_descend (structure : FolderTree) (c : nat) (rest : list nat)
    (i : nat) :
  rest <> [] ->
  emit_index structure (c :: rest) = Some i ->
  exists entry k,
    nth_error (entries_of structure) c = Some entry
    /\ emit_index (snd entry) rest = Some k
    /\ i = emitted_before structure c + 1 + k.
Proof.
  intros Hne Hi. destruct rest as [|c' rest']; [congruence|].
  rewrite emit_index_deeper in Hi.
  destruct (nth_error (entries_of structure) c) as [entry|]; [|discriminate].
  destruct (emit_index (snd entry) (c' :: rest')) as [k|] eqn:Hk; [|discriminate].
  some_inj Hi. exists entry, k. repeat split; [exact Hk].
Qed.

(** A folder is emitted before every folder below it. *)
Lemma emit_index_ancestor (pos : list nat) :
  forall structure below i j,
    below <> [] ->
    emit_index structure pos = Some i ->
    emit_index structure (pos ++ below) = Some j ->
    i < j.
Proof.
  induction pos as [|c rest IH]; intros structure below i j Hne Hi Hj.
  - discriminate.
  - rewrite <- app_comm_cons in Hj.
    apply emit_index_descend in Hj;
      [|destruct rest; [assumption | discriminate]].
    destruct Hj as (entry & k' & Hc & Hk' & ->).
    destruct rest as [|c' rest'].
    + rewrite emit_index_child, Hc in Hi. some_inj Hi. lia.
    + apply emit_index_descend in Hi; [|discriminate].
      destruct Hi as (entry' & k & Hc' & Hk & ->).
      rewrite Hc in Hc'. injection Hc' as <-.
      assert (k < k') by (apply (IH (snd entry) below); assumption).
      lia.
Qed.

(** The index of a folder lies within the block of the key it is under. *)
Lemma emit_index_in_block (structure : FolderTree) (c : nat) (rest : list nat)
    (i : nat) :
  emit_index structure (c :: rest) = Some i ->
  exists entry,
    nth_error (entries_of structure) c = Some entry
    /\ emitted_before structure c <= i
    /\ i < emitted_before structure c + S (count_dirs (snd entry)).
Proof.
  intros Hi. destruct rest as [|c' rest'].
  - rewrite emit_index_child in Hi.
    destruct (nth_error (entries_of structure) c) as [entry|]; [|discriminate].
    some_inj Hi. exists entry. split; [reflexivity | lia].
  - apply emit_index_descend in Hi; [|discriminate].
    destruct Hi as (entry & k & Hc & Hk & ->).
    apply emit_index_bound in Hk. exists entry. split; [assumption | lia].
Qed.

(** Under one folder, everything in the subtree of an earlier key is
    emitted before everything in the subtree of a later key. *)
Lemma emit_index_siblings (pos : list nat) :
  forall structure a b below_a below_b i j,
    a < b ->
    emit_index structure (pos ++ a :: below_a) = Some i ->
    emit_index structure (pos ++ b :: below_b) = Some j ->
    i < j.
Proof.
  induction pos as [|c rest IH]; intros structure a b below_a below_b i j Hab Hi Hj.
  - simpl app in Hi, Hj.
    apply emit_index_in_block in Hi. apply emit_index_in_block in Hj.
    destruct Hi as (ea & Ha & _ & Hi). destruct Hj as (eb & Hb & Hj & _).
    pose proof (list_sum_firstn_le _ (fun e => S (count_dirs (snd e)))
                  (entries_of structure) a b ea Hab Ha) as Hsum.
    cbv beta in Hsum. unfold emitted_before in *. lia.
  - rewrite <- app_comm_cons in Hi, Hj.
    apply emit_index_descend in Hi; [|destruct rest; discriminate].
    apply emit_index_descend in Hj; [|destruct rest; discriminate].
    destruct Hi as (entry & k & Hc & Hk & ->).
    destruct Hj as (entry' & k' & Hc' & Hk' & ->).
    rewrite Hc in Hc'. injection Hc' as <-.
    assert (k < k') by (apply (IH (snd entry) a b below_a below_b); assumption).
    lia.
Qed.

Lemma list_sum_split_at (A : Type) (g : A -> nat) (l : list A) (i : nat) :
  i < list_sum (map g l) ->
  exists c x k,
    nth_error l c = Some x
    /\ i = list_sum (map g (firstn c l)) + k
    /\ k < g x.
Proof.
  revert i. induction l as [|y l IH]; intros i Hi; simpl in Hi.
  - lia.
  - destruct (Nat.lt_ge_cases i (g y)) as [Hlt | Hge].
    + exists 0, y, i. split; [reflexivity | split; [reflexivity | assumption]].
    + destruct (IH (i - g y) ltac:(lia)) as (c & x & k & Hc & Hk & Hlt).
      exists (S c), x, k. simpl. split; [assumption | split; [lia | assumption]].
Qed.

(** Every index of the flattened list is the index of some position. *)
Lemma emit_index_onto (structure : FolderTree) :
  forall i, i < count_dirs structure ->
            exists pos, emit_index structure pos = Some i.
Proof.
  induction structure as [entries IH] using FolderTree_forall_ind.
  intros i Hi. rewrite count_dirs_Node in Hi.
  apply list_sum_split_at in Hi. destruct Hi as (c & entry & k & Hc & -> & Hk).
  destruct k as [|k].
  - exists [c]. rewrite emit_index_child. cbn [entries_of]. rewrite Hc.
    unfold emitted_before. cbn [entries_of]. f_equal. lia.
  - rewrite Forall_forall in IH.
    destruct (IH entry (nth_error_In _ _ Hc) k ltac:(lia)) as (pos & Hpos).
    destruct pos as [|c' rest]; [discriminate|].
    exists (c :: c' :: rest). rewrite emit_index_deeper. cbn [entries_of].
    rewrite Hc, Hpos. unfold emitted_before. cbn [entries_of option_map].
    f_equal. lia.
Qed.

(** Every folder of the tree has an index. *)
Lemma emit_index_defined (join : string -> string -> string) (pos : list nat) :
  forall structure parent_path found,
    locate join structure parent_path pos = Some found ->
    exists i, emit_index structure pos = Some i.
Proof.
  induction pos as [|c rest IH]; intros structure parent_path found Hloc.
  - discriminate.
  - cbn [locate] in Hloc.
    destruct (nth_error (entries_of structure) c) as [entry|] eqn:Hc;
      [|discriminate].
    destruct rest as [|c' rest'].
    + exists (emitted_before structure c). rewrite emit_index_child, Hc.
      reflexivity.
    + destruct (IH _ _ _ Hloc) as (k & Hk).
      exists (emitted_before structure c + 1 + k).
      rewrite emit_index_deeper, Hc, Hk. reflexivity.
Qed.

(** ** The flattening: claims C1, C5 and C6 *)

(** C1. The flattened list is a depth-first pre-order of the tree. Every
    folder of the tree (a position [pos]) has an index [emit_index] in the
    list, the list holds the folder's full path at that index, and every
    index of the list is the index of some folder. A folder's index is
    strictly below the index of every folder below it ([pos ++ below]),
    and under one folder everything in the subtree of the [a]-th key has
    an index strictly below everything in the subtree of the [b]-th key
    whenever [a < b] in the order of the mapping's keys. *)
Theorem traverse_structure_preorder
    (join : string -> string -> string) (structure : FolderTree)
    (root_path : string) :
  (forall pos found,
      locate join structure root_path pos = Some found ->
      exists i, emit_index structure pos = Some i)
  /\ (forall pos i,
         emit_index structure pos = Some i ->
         exists full_path sub,
           locate join structure root_path pos = Some (full_path, sub)
           /\ nth_error (traverse_structure join structure root_path) i
              = Some full_path)
  /\ (forall i,
         i < length (traverse_structure join structure root_path) ->
         exists pos, emit_index structure pos = Some i)
  /\ (forall pos below i j,
         below <> [] ->
         emit_index structure pos = Some i ->
         emit_index structure (pos ++ below) = Some j ->
         i < j)
  /\ (forall pos a b below_a below_b i j,
         a < b ->
         emit_index structure (pos ++ a :: below_a) = Some i ->
         emit_index structure (pos ++ b :: below_b) = Some j ->
         i < j).
Proof.
  split; [|split; [|split; [|split]]].
  - intros pos found. apply emit_index_defined.
  - intros pos i. apply emit_index_emitted.
  - intros i. rewrite length_traverse_structure. apply emit_index_onto.
  - intros pos below i j. apply emit_index_ancestor.
  - intros pos a b below_a below_b i j. apply emit_index_siblings.
Qed.

(** C5. The flattened list has one entry per folder of the tree, the
    root not counted; the empty tree gives the empty list. *)
Theorem traverse_structure_length
    (join : string -> string -> string) (structure : FolderTree)
    (root_path : string) :
  length (traverse_structure join structure root_path) = count_dirs structure
  /\ traverse_structure join (Node []) root_path = [].
Proof.
  split.
  - apply length_traverse_structure.
  - reflexivity.
Qed.

(** C6. The tree [{"A": {"B": {}}, "C": {}}] under ["/root"], keys in the
    order A then C, flattens to [/root/A], [/root/A/B], [/root/C], each
    entry being the POSIX join of the parent's path and the folder's
    name. *)
Theorem traverse_structure_example :
  traverse_structure posix_join tree_A_B_C "/root"
  = ["/root/A"; "/root/A/B"; "/root/C"]
  /\ traverse_structure posix_join tree_A_B_C "/root"
     = [posix_join "/root" "A";
        posix_join (posix_join "/root" "A") "B";
        posix_join "/root" "C"]
  /\ dict_keys (entries_of tree_A_B_C) = ["A"; "C"].
Proof.
  repeat split.
Qed.

(** ** Prefixes and suffixes *)

Lemma startswith_iff (s pre : string) :
  startswith s pre = true <-> exists rest, s = (pre ++ rest)%string.
Proof.
  revert s. induction pre as [|a pre IH]; intros s; simpl.
  - split; [intros _; exists s; reflexivity | reflexivity].
  - destruct s as [|b s].
    + split; [discriminate | intros [rest Hrest]; discriminate].
    + rewrite andb_true_iff, Ascii.eqb_eq, IH. split.
      * intros [-> [rest ->]]. exists rest. reflexivity.
      * intros [rest Hrest]. injection Hrest as -> ->. split; [reflexivity|].
        exists rest. reflexivity.
Qed.

Lemma endswith_unfold (s suf : string) :
  endswith s suf
  = if String.eqb s suf then true
    else match s with
         | EmptyString => false
         | String _ s' => endswith s' suf
         end.
Proof. destruct s; reflexivity. Qed.

Lemma endswith_iff (s suf : string) :
  endswith s suf = true <-> exists front, s = (front ++ suf)%string.
Proof.
  induction s as [|a s IH]; rewrite endswith_unfold.
  - destruct (String.eqb_spec "" suf) as [<- | Hne].
    + split; [intros _; exists ""; reflexivity | reflexivity].
    + split; [discriminate|].
      intros [front Hfront]. destruct front; simpl in Hfront.
      * congruence.
      * discriminate.
  - destruct (String.eqb_spec (String a s) suf) as [<- | Hne].
    + split; [intros _; exists ""; reflexivity | reflexivity].
    + rewrite IH. split.
      * intros [front ->]. exists (String a front). reflexivity.
      * intros [front Hfront]. destruct front as [|b front]; simpl in Hfront.
        -- congruence.
        -- injection Hfront as -> ->. exists front. reflexivity.
Qed.

Lemma length_append (a b : string) :
  String.length (a ++ b) = String.length a + String.length b.
Proof.
  induction a as [|c a IH]; simpl; [reflexivity | rewrite IH; reflexivity].
Qed.

(** Two suffixes of one length that end the same string are equal. *)
Lemma append_suffix_inj (s1 : string) :
  forall s2 a b,
    String.length a = String.length b ->
    (s1 ++ a)%string = (s2 ++ b)%string -> a = b.
Proof.
  induction s1 as [|c s1 IH]; intros [|d s2] a b Hlen Heq; simpl in Heq.
  - exact Heq.
  - apply (f_equal String.length) in Heq. simpl in Heq.
    rewrite length_append in Heq. lia.
  - apply (f_equal String.length) in Heq. simpl in Heq.
    rewrite length_append in Heq. lia.
  - injection Heq as _ Heq. apply (IH s2); assumption.
Qed.

(** ** Dictionaries *)

Lemma dict_keys_dict_set (V : Type) (d : list (string * V)) (k : string) (v : V)
    (name : string) :
  In name (dict_keys (dict_set d k v)) <-> name = k \/ In name (dict_keys d).
Proof.
  unfold dict_keys. induction d as [|[k' v'] d IH]; simpl.
  - intuition congruence.
  - destruct (String.eqb_spec k' k) as [-> | Hne]; simpl.
    + intuition congruence.
    + rewrite IH. intuition congruence.
Qed.

Lemma Forall_dict_set (V : Type) (P : string * V -> Prop)
    (d : list (string * V)) (k : string) (v : V) :
  Forall P d -> P (k, v) -> Forall P (dict_set d k v).
Proof.
  intros Hd Hkv. induction Hd as [|[k' v'] d Hhead Htail IH]; simpl.
  - constructor; [assumption | constructor].
  - destruct (String.eqb k' k); constructor; assumption.
Qed.

(** ** The directory walk: claims C2 and C3 *)

Section WalkFacts.

Variable fs : FileSystem.

Lemma mirrors_Node (path : string) (items : list (string * FolderTree)) :
  mirrors fs path (Node items)
  <-> exists entries,
        os_scandir fs path = Returned entries
        /\ keys_are_dirs entries items
        /\ (existsb is_directory entries = false -> items = [])
        /\ Forall (recorded_from fs entries) items.
Proof.
  cbn [mirrors]. split; intros (entries & Hscan & Hkeys & Hleaf & Heach);
    exists entries; (split; [exact Hscan|]); (split; [exact Hkeys|]);
    (split; [exact Hleaf|]); clear Hkeys Hleaf.
  - induction items as [|item items IH]; constructor.
    + exact (proj1 Heach).
    + exact (IH (proj2 Heach)).
  - induction Heach as [|item items Hitem _ IH]; [exact I|].
    split; [exact Hitem | exact IH].
Qed.

(** One turn of the loop, by what [entry.is_dir()] does. *)
Lemma scan_entries_step (recurse : string -> Scan FolderTree)
    (entry : DirEntry) (rest : list DirEntry)
    (structure : list (string * FolderTree)) (calls : list syscall) :
  scan_entries recurse (entry :: rest) structure calls
  = match entry_is_dir entry with
    | Raised e => (Raised (PyExn e), calls)
    | Returned false => scan_entries recurse rest structure calls
    | Returned true =>
        match recurse (entry_path entry) calls with
        | (Returned sub, calls') =>
            scan_entries recurse rest
              (dict_set structure (entry_name entry) sub) calls'
        | (Raised e, calls') => (Raised e, calls')
        end
    end.
Proof.
  cbn [scan_entries]. unfold bind at 1, lift_os.
  destruct (entry_is_dir entry) as [[|]|e]; reflexivity.
Qed.

Section Loop.

Variable depth : nat.
Hypothesis build_structure_ok :
  forall path calls,
    walkable fs depth path = true ->
    exists tree calls',
      build_structure fs depth path calls = (Returned tree, calls')
      /\ mirrors fs path tree.

(** The loop over the entries keeps the mapping a record of the
    directories met so far. *)
Lemma scan_entries_ok (todo : list DirEntry) :
  forall seen structure calls,
    forallb (fun entry =>
               is_dir_answers entry
               && (negb (is_directory entry)
                   || walkable fs depth (entry_path entry))) todo = true ->
    keys_are_dirs seen structure ->
    Forall (recorded_from fs seen) structure ->
    exists structure' calls',
      scan_entries (build_structure fs depth) todo structure calls
      = (Returned structure', calls')
      /\ keys_are_dirs (seen ++ todo) structure'
      /\ Forall (recorded_from fs (seen ++ todo)) structure'.
Proof.
  induction todo as [|entry todo IH]; intros seen structure calls Hwalk Hkeys Hrec.
  - exists structure, calls. rewrite app_nil_r. auto.
  - cbn [forallb] in Hwalk. apply andb_true_iff in Hwalk.
    destruct Hwalk as [Hentry Hwalk]. apply andb_true_iff in Hentry.
    destruct Hentry as [Hanswers Hentry].
    replace (seen ++ entry :: todo) with ((seen ++ [entry]) ++ todo)
      by (rewrite <- app_assoc; reflexivity).
    rewrite scan_entries_step.
    pose proof (eq_refl (is_directory entry)) as Hdir.
    unfold is_directory at 2 in Hdir. unfold is_dir_answers in Hanswers.
    destruct (entry_is_dir entry) as [[|]|e]; [| |discriminate];
      rewrite Hdir in Hentry.
    + cbn [negb orb] in Hentry.
      destruct (build_structure_ok (entry_path entry) calls Hentry)
        as (sub & calls1 & Hsub & Hmirror).
      rewrite Hsub.
      apply IH; [exact Hwalk | |].
      * intros name. rewrite dict_keys_dict_set, (Hkeys name). split.
        -- intros [-> | (e & He & Hd & Hn)].
           ++ exists entry. rewrite in_app_iff. simpl. auto.
           ++ exists e. rewrite in_app_iff. auto.
        -- intros (e & He & Hd & Hn). apply in_app_iff in He.
           destruct He as [He | [<- | []]].
           ++ right. exists e. auto.
           ++ left. congruence.
      * apply Forall_dict_set.
        -- eapply Forall_impl; [|exact Hrec].
           intros item (e & He & Hd & Hn & Hm). exists e.
           rewrite in_app_iff. auto.
        -- exists entry. rewrite in_app_iff. simpl. auto.
    + apply IH; [exact Hwalk | |].
      * intros name. rewrite (Hkeys name). split.
        -- intros (e & He & Hd & Hn). exists e. rewrite in_app_iff. auto.
        -- intros (e & He & Hd & Hn). apply in_app_iff in He.
           destruct He as [He | [<- | []]].
           ++ exists e. auto.
           ++ congruence.
      * eapply Forall_impl; [|exact Hrec].
        intros item (e & He & Hd & Hn & Hm). exists e.
        rewrite in_app_iff. auto.
Qed.

End Loop.

Lemma keys_no_dirs (entries : list DirEntry)
    (items : list (string * FolderTree)) :
  keys_are_dirs entries items ->
  existsb is_directory entries = false -> items = [].
Proof.
  intros Hkeys Hnone. destruct items as [|[name sub] items]; [reflexivity|].
  destruct (proj1 (Hkeys name) (or_introl eq_refl)) as (e & He & Hd & _).
  assert (Hsome : existsb is_directory entries = true)
    by (apply existsb_exists; exists e; auto).
  congruence.
Qed.

(** A walk of a walkable directory returns, and what it returns mirrors
    the directory. *)
Lemma build_structure_mirrors (depth : nat) :
  forall path calls,
    walkable fs depth path = true ->
    exists tree calls',
      build_structure fs depth path calls = (Returned tree, calls')
      /\ mirrors fs path tree.
Proof.
  induction depth as [|depth IH]; intros path calls Hwalk.
  - discriminate.
  - cbn [walkable] in Hwalk.
    destruct (os_scandir fs path) as [entries|e] eqn:Hscan; [|discriminate].
    destruct (scan_entries_ok depth IH entries [] [] (calls ++ [SysScandir path])
                Hwalk)
      as (structure & calls' & Hloop & Hkeys & Hrec).
    + intros name. simpl. split; [intros [] | intros (e & [] & _)].
    + constructor.
    + exists (Node structure), calls'. split.
      * cbn [build_structure]. unfold bind, log, modify, lift_os.
        rewrite Hscan. unfold ret at 1. rewrite Hloop. reflexivity.
      * apply mirrors_Node. exists entries. simpl in Hkeys, Hrec.
        split; [exact Hscan|]. split; [exact Hkeys|].
        split; [apply keys_no_dirs; exact Hkeys | exact Hrec].
Qed.

(** The loop returns only when [is_dir()] returned for every entry and
    the recursive call returned for every directory. *)
Lemma scan_entries_returns (recurse : string -> Scan FolderTree)
    (reached : string -> bool) :
  (forall path calls tree calls',
      recurse path calls = (Returned tree, calls') -> reached path = true) ->
  forall todo structure calls result calls',
    scan_entries recurse todo structure calls = (Returned result, calls') ->
    forallb (fun entry =>
               is_dir_answers entry
               && (negb (is_directory entry) || reached (entry_path entry)))
            todo = true.
Proof.
  intros Hrec. induction todo as [|entry todo IH];
    intros structure calls result calls' Hrun; [reflexivity|].
  rewrite scan_entries_step in Hrun. cbn [forallb].
  unfold is_dir_answers, is_directory.
  destruct (entry_is_dir entry) as [[|]|e]; [| |discriminate].
  - destruct (recurse (entry_path entry) calls) as [[sub|e] calls1] eqn:Hsub;
      [|discriminate].
    rewrite (Hrec _ _ _ _ Hsub). cbn [negb orb andb].
    exact (IH _ _ _ _ Hrun).
  - cbn [negb orb andb]. exact (IH _ _ _ _ Hrun).
Qed.

(** A walk that returns was a walk of a walkable directory. *)
Lemma build_structure_returns_walkable (depth : nat) :
  forall path calls tree calls',
    build_structure fs depth path calls = (Returned tree, calls') ->
    walkable fs depth path = true.
Proof.
  induction depth as [|depth IH]; intros path calls tree calls' Hrun.
  - discriminate.
  - cbn [build_structure] in Hrun. cbn [walkable].
    unfold bind at 1, log, modify in Hrun.
    unfold bind at 1, lift_os in Hrun.
    destruct (os_scandir fs path) as [entries|e]; [|discriminate].
    unfold ret at 1, bind in Hrun.
    destruct (scan_entries (build_structure fs depth) entries []
                (calls ++ [SysScandir path]))
      as [[structure|e] calls1] eqn:Hloop; [|discriminate].
    exact (scan_entries_returns _ (walkable fs depth) IH _ _ _ _ _ Hloop).
Qed.

End WalkFacts.

Example get_folder_structure_fs_data :
  get_folder_structure fs_data 3 "/data" []
  = (Returned (Node [("a", Node [("x", Node [])]); ("b", Node [])]),
     [SysExists "/data"; SysScandir "/data"; SysScandir "/data/a";
      SysScandir "/data/a/x"; SysScandir "/data/b"]).
Proof. reflexivity. Qed.

(** C2, as the code has it. For a root that exists, the walk returns a
    mapping exactly when it is walkable: every directory met can be
    listed and [entry.is_dir()] returns for every entry met (the
    hierarchy being less than [depth] deep). The mapping returned then
    mirrors the hierarchy: at every level the keys are exactly the
    entries that are directories, so no regular file is recorded, and a
    folder without sub-directories maps to the empty mapping. Otherwise
    the walk returns no mapping: an exception leaves it. *)
Theorem get_folder_structure_mirrors
    (fs : FileSystem) (depth : nat) (root_path : string) (calls : list syscall) :
  os_path_exists fs root_path = true ->
  (walkable fs depth root_path = true ->
   exists tree calls',
     get_folder_structure fs depth root_path calls = (Returned tree, calls')
     /\ mirrors fs root_path tree)
  /\ (walkable fs depth root_path = false ->
      exists e calls',
        get_folder_structure fs depth root_path calls = (Raised e, calls')).
Proof.
  intros Hexists.
  assert (Hscan : get_folder_structure fs depth root_path calls
                  = build_structure fs depth root_path
                      (calls ++ [SysExists root_path])).
  { unfold get_folder_structure, bind, log, modify. rewrite Hexists.
    reflexivity. }
  rewrite Hscan. split.
  - intros Hwalk. apply build_structure_mirrors. exact Hwalk.
  - intros Hwalk.
    destruct (build_structure fs depth root_path
                (calls ++ [SysExists root_path]))
      as [[tree|e] calls'] eqn:Hrun.
    + apply build_structure_returns_walkable in Hrun. congruence.
    + exists e, calls'. reflexivity.
Qed.

Lemma get_folder_structure_mirrors_witness :
  (exists tree calls',
      get_folder_structure fs_data 3 "/data" [] = (Returned tree, calls')
      /\ mirrors fs_data "/data" tree)
  /\ (exists e calls',
         get_folder_structure fs_locked 3 "/srv" [] = (Raised e, calls'))
  /\ (exists e calls',
         get_folder_structure fs_loop 3 "/mnt" [] = (Raised e, calls')).
Proof.
  split; [|split].
  - exact (proj1 (get_folder_structure_mirrors fs_data 3 "/data" [] eq_refl)
             eq_refl).
  - exact (proj2 (get_folder_structure_mirrors fs_locked 3 "/srv" [] eq_refl)
             eq_refl).
  - exact (proj2 (get_folder_structure_mirrors fs_loop 3 "/mnt" [] eq_refl)
             eq_refl).
Defined.

(** C2, as stated, fails. [/srv] exists and can be listed, but its
    sub-folder [private] cannot, and the walk raises the
    [PermissionError] of that listing instead of returning a mapping,
    whatever the depth granted. [/mnt] exists and every directory under
    it can be listed, but it holds a symbolic link that loops, and the
    walk raises the [OSError] of [is_dir()] on it. *)
Lemma get_folder_structure_locked_subfolder :
  os_path_exists fs_locked "/srv" = true
  /\ (exists entries, os_scandir fs_locked "/srv" = Returned entries)
  /\ (forall depth calls,
         fst (get_folder_structure fs_locked (S (S depth)) "/srv" calls)
         = Raised (PyExn (PermissionError "/srv/private")))
  /\ (forall depth calls,
         exists e, fst (get_folder_structure fs_locked depth "/srv" calls)
                   = Raised e)
  /\ os_path_exists fs_loop "/mnt" = true
  /\ (forall depth calls,
         fst (get_folder_structure fs_loop (S (S depth)) "/mnt" calls)
         = Raised (PyExn (OSError "/mnt/self")))
  /\ (forall depth calls,
         exists e, fst (get_folder_structure fs_loop depth "/mnt" calls)
                   = Raised e).
Proof.
  split; [reflexivity|]. split; [eexists; reflexivity|]. split.
  { intros depth calls. reflexivity. }
  split.
  { intros [|[|depth]] calls; eexists; reflexivity. }
  split; [reflexivity|]. split.
  { intros depth calls. reflexivity. }
  intros [|[|depth]] calls; eexists; reflexivity.
Qed.

(** C3. For a root path that does not exist the walk raises the
    [ValueError] whose message ends with that very path, and the only
    file-system call made is the existence test: no directory is listed. *)
Theorem get_folder_structure_missing
    (fs : FileSystem) (depth : nat) (root_path : string) (calls : list syscall) :
  os_path_exists fs root_path = false ->
  get_folder_structure fs depth root_path calls
  = (Raised (PyExn (ValueError (not_found_prefix ++ root_path)%string)),
     calls ++ [SysExists root_path])
  /\ endswith (not_found_prefix ++ root_path)%string root_path = true.
Proof.
  intros Hmissing. split.
  - unfold get_folder_structure, bind, log, modify. rewrite Hmissing.
    reflexivity.
  - apply endswith_iff. exists not_found_prefix. reflexivity.
Qed.

Lemma get_folder_structure_missing_witness :
  get_folder_structure fs_data 3 "/nowhere" []
  = (Raised (PyExn (ValueError (not_found_prefix ++ "/nowhere")%string)),
     [] ++ [SysExists "/nowhere"])
  /\ endswith (not_found_prefix ++ "/nowhere")%string "/nowhere" = true.
Proof.
  exact (get_folder_structure_missing fs_data 3 "/nowhere" [] eq_refl).
Defined.

(** ** The spreadsheet lookup: claims C4, C7, C8, C9 and C10 *)

Section LookupFacts.

Variable host : Host.
Variable join : string -> string -> string.

(** With a folder path set, the lookup starts by listing the folder. *)
Lemma check_and_display_lists (p : Process) (folder : string) :
  folder_path (selector p) = Some folder -> folder <> "" ->
  check_and_display_excel_file host join p
  = match os_listdir host folder with
    | Raised e =>
        (Raised e, {| selector := selector p;
                      events := events p ++ [Listdir folder] |})
    | Returned names =>
        match excel_files_in names with
        | [excel_file] =>
            (tk host (LabelConfigText ("Excel File: " ++ excel_file)%string) ;;
             workbook <- open_workbook host (join folder excel_file) true ;;
             tk host (ComboSetValues (sheetnames workbook)) ;;
             match sheetnames workbook with
             | [] => ret tt
             | _ :: _ => tk host (ComboCurrent 0)
             end ;;
             close_workbook (join folder excel_file))
        | _ =>
            (tk host (LabelConfigText placeholder_text) ;;
             tk host (ComboSetValues []) ;;
             tk host (ComboSet ""))
        end {| selector := selector p;
               events := events p ++ [Listdir folder] |}
    end.
Proof.
  intros Hfolder Hne.
  unfold check_and_display_excel_file. unfold bind at 1, get at 1.
  rewrite Hfolder.
  destruct folder as [|a folder]; [congruence|].
  unfold bind at 1, listdir, bind at 1, emit, modify, lift.
  destruct (os_listdir host (String a folder)); reflexivity.
Qed.

(** The guard [if not self.folder_path: return]. *)
Lemma check_and_display_guard (p : Process) :
  folder_path (selector p) = None \/ folder_path (selector p) = Some "" ->
  check_and_display_excel_file host join p = (Returned tt, p).
Proof.
  intros [Hnone | Hempty];
    unfold check_and_display_excel_file, bind, get;
    [rewrite Hnone | rewrite Hempty]; reflexivity.
Qed.

(** C10. With no folder path, or an empty one, the lookup returns at
    once: the process is what it was, the label's text and the sheet
    list included, and nothing was done outside. *)
Theorem check_and_display_no_folder (p : Process) :
  folder_path (selector p) = None \/ folder_path (selector p) = Some "" ->
  check_and_display_excel_file host join p = (Returned tt, p)
  /\ excel_file_label
       (selector (snd (check_and_display_excel_file host join p)))
     = excel_file_label (selector p)
  /\ sheet_values
       (selector (snd (check_and_display_excel_file host join p)))
     = sheet_values (selector p)
  /\ events (snd (check_and_display_excel_file host join p)) = events p.
Proof.
  intros Hguard. rewrite (check_and_display_guard p Hguard).
  repeat split.
Qed.

(** A widget command the toolkit carries out. *)
Lemma tk_done (c : tk_command) (p : Process) :
  tcl_error host c = None ->
  (forall index, c = ComboCurrent index ->
                 index < length (sheet_values (selector p))) ->
  tk host c p
  = (Returned tt, {| selector := run_command c (selector p);
                     events := events p |}).
Proof.
  intros Hok Hindex. unfold tk. rewrite Hok.
  destruct c as [text | values | index | text]; try reflexivity.
  unfold bind, get.
  destruct (Nat.ltb_spec index (length (sheet_values (selector p))))
    as [_ | Hge]; [reflexivity|].
  specialize (Hindex index eq_refl). lia.
Qed.

(** What the lookup does by the number of files its filter keeps. *)
Lemma check_and_display_by_filter
    (p : Process) (folder : string) (names : list string) :
  folder_path (selector p) = Some folder -> folder <> "" ->
  os_listdir host folder = Returned names ->
  (forall c, tcl_error host c = None) ->
  (forall excel_file workbook,
      excel_files_in names = [excel_file] ->
      load_workbook host (join folder excel_file) = Returned workbook ->
      exists p',
        check_and_display_excel_file host join p = (Returned tt, p')
        /\ sheet_values (selector p') = sheetnames workbook
        /\ excel_file_label (selector p')
           = ("Excel File: " ++ excel_file)%string)
  /\ (length (excel_files_in names) <> 1 ->
      exists p',
        check_and_display_excel_file host join p = (Returned tt, p')
        /\ excel_file_label (selector p') = placeholder_text
        /\ sheet_values (selector p') = []
        /\ sheet_text (selector p') = "").
Proof.
  intros Hfolder Hne Hlist Htk.
  rewrite (check_and_display_lists p folder Hfolder Hne), Hlist.
  split.
  - intros excel_file workbook Hone Hload. rewrite Hone.
    unfold bind at 1. rewrite tk_done by (auto; discriminate).
    unfold bind at 1, open_workbook, bind at 1, lift. rewrite Hload.
    unfold bind at 1, emit, modify, ret at 1.
    unfold bind at 1. rewrite tk_done by (auto; discriminate).
    unfold bind at 1, close_workbook, emit, modify.
    destruct (sheetnames workbook) as [|sheet sheets] eqn:Hsheets.
    + unfold ret. eexists. split; [reflexivity|]. split; reflexivity.
    + rewrite tk_done; [|auto|].
      * eexists. split; [reflexivity|]. split; reflexivity.
      * intros index Hindex. injection Hindex as <-. simpl. lia.
  - intros Hlen.
    assert (Hnone :
              (tk host (LabelConfigText placeholder_text) ;;
               tk host (ComboSetValues []) ;;
               tk host (ComboSet ""))
                {| selector := selector p;
                   events := events p ++ [Listdir folder] |}
              = (Returned tt,
                 {| selector :=
                      run_command (ComboSet "")
                        (run_command (ComboSetValues [])
                           (run_command (LabelConfigText placeholder_text)
                              (selector p)));
                    events := events p ++ [Listdir folder] |})).
    { unfold bind. repeat rewrite tk_done by (auto; discriminate).
      reflexivity. }
    destruct (excel_files_in names) as [|f [|g rest]];
      [| simpl in Hlen; congruence |];
      rewrite Hnone; eexists; (split; [reflexivity|]); repeat split.
Qed.

(** An exception of the listing or of the spreadsheet library leaves
    the lookup as it is. *)
Lemma check_and_display_load_fails
    (p : Process) (folder : string) (names : list string)
    (excel_file : string) (e : exn) :
  folder_path (selector p) = Some folder -> folder <> "" ->
  os_listdir host folder = Returned names ->
  excel_files_in names = [excel_file] ->
  tcl_error host (LabelConfigText ("Excel File: " ++ excel_file)%string) = None ->
  load_workbook host (join folder excel_file) = Raised e ->
  check_and_display_excel_file host join p
  = (Raised e,
     {| selector :=
          run_command (LabelConfigText ("Excel File: " ++ excel_file)%string)
                      (selector p);
        events := events p ++ [Listdir folder] |}).
Proof.
  intros Hfolder Hne Hlist Hone Hlabel Hload.
  rewrite (check_and_display_lists p folder Hfolder Hne), Hlist, Hone.
  unfold bind at 1. rewrite tk_done by (auto; discriminate).
  unfold bind at 1, open_workbook, bind at 1, lift. rewrite Hload.
  reflexivity.
Qed.

(** The filter against the words of the specification. *)
Lemma qualifies_spreadsheet_name (name : string) :
  qualifies name = true <-> spreadsheet_name name.
Proof.
  unfold qualifies, spreadsheet_name.
  rewrite andb_true_iff, negb_true_iff, endswith_iff.
  rewrite <- startswith_iff, not_true_iff_false. reflexivity.
Qed.

Lemma excel_files_in_none (names : list string) :
  Forall (fun name => ~ spreadsheet_name name) names ->
  excel_files_in names = [].
Proof.
  unfold excel_files_in. induction 1 as [|name names Hname _ IH]; simpl.
  - reflexivity.
  - destruct (qualifies name) eqn:Hq; [|exact IH].
    apply qualifies_spreadsheet_name in Hq. contradiction.
Qed.

Lemma excel_files_in_one (before after : list string) (excel_file : string) :
  spreadsheet_name excel_file ->
  Forall (fun name => ~ spreadsheet_name name) (before ++ after) ->
  excel_files_in (before ++ excel_file :: after) = [excel_file].
Proof.
  intros Hfile Hothers. apply Forall_app in Hothers.
  destruct Hothers as [Hbefore Hafter].
  apply qualifies_spreadsheet_name in Hfile.
  unfold excel_files_in in *. rewrite filter_app. cbn [filter].
  rewrite Hfile.
  change (filter qualifies before) with (excel_files_in before).
  change (filter qualifies after) with (excel_files_in after).
  rewrite (excel_files_in_none _ Hbefore), (excel_files_in_none _ Hafter).
  reflexivity.
Qed.

Lemma excel_files_in_several (l1 l2 l3 : list string) (f g : string) :
  spreadsheet_name f -> spreadsheet_name g ->
  length (excel_files_in (l1 ++ f :: l2 ++ g :: l3)) <> 1.
Proof.
  intros Hf Hg. apply qualifies_spreadsheet_name in Hf, Hg.
  unfold excel_files_in. rewrite filter_app. cbn [filter]. rewrite Hf.
  rewrite filter_app. cbn [filter]. rewrite Hg.
  rewrite length_app. cbn [length]. rewrite length_app. cbn [length]. lia.
Qed.

(** C4, as the code has it. For a stored folder path that is not empty
    and can be listed, with a toolkit that carries out its commands:
    when exactly one listed name is a spreadsheet name and the
    spreadsheet library loads that file, the lookup returns with the
    sheet list equal to the workbook's sheet names, in their order, and
    the label naming the file; when that file cannot be loaded, the
    exception of the library leaves the lookup; when no listed name, or
    more than one, is a spreadsheet name, the lookup returns with the
    placeholder label, the empty sheet list and the empty selection. *)
Theorem check_and_display_resolves
    (p : Process) (folder : string) (names : list string) :
  folder_path (selector p) = Some folder -> folder <> "" ->
  os_listdir host folder = Returned names ->
  (forall c, tcl_error host c = None) ->
  (forall before excel_file after workbook,
      names = before ++ excel_file :: after ->
      spreadsheet_name excel_file ->
      Forall (fun name => ~ spreadsheet_name name) (before ++ after) ->
      load_workbook host (join folder excel_file) = Returned workbook ->
      exists p',
        check_and_display_excel_file host join p = (Returned tt, p')
        /\ sheet_values (selector p') = sheetnames workbook
        /\ excel_file_label (selector p')
           = ("Excel File: " ++ excel_file)%string)
  /\ (forall before excel_file after e,
         names = before ++ excel_file :: after ->
         spreadsheet_name excel_file ->
         Forall (fun name => ~ spreadsheet_name name) (before ++ after) ->
         load_workbook host (join folder excel_file) = Raised e ->
         exists p',
           check_and_display_excel_file host join p = (Raised e, p'))
  /\ (Forall (fun name => ~ spreadsheet_name name) names ->
      exists p',
        check_and_display_excel_file host join p = (Returned tt, p')
        /\ no_selection (selector p'))
  /\ (forall l1 f l2 g l3,
         names = l1 ++ f :: l2 ++ g :: l3 ->
         spreadsheet_name f -> spreadsheet_name g ->
         exists p',
           check_and_display_excel_file host join p = (Returned tt, p')
           /\ no_selection (selector p')).
Proof.
  intros Hfolder Hne Hlist Htk.
  destruct (check_and_display_by_filter p folder names Hfolder Hne Hlist Htk)
    as [Hone Hnot_one].
  split; [|split; [|split]].
  - intros before excel_file after workbook -> Hfile Hothers Hload.
    apply Hone; [|exact Hload].
    apply excel_files_in_one; assumption.
  - intros before excel_file after e Hnames Hfile Hothers Hload.
    eexists.
    apply (check_and_display_load_fails p folder names excel_file e);
      try assumption; [|apply Htk].
    rewrite Hnames. apply excel_files_in_one; assumption.
  - intros Hnone. apply Hnot_one.
    rewrite (excel_files_in_none _ Hnone). discriminate.
  - intros l1 f l2 g l3 -> Hf Hg. apply Hnot_one.
    apply excel_files_in_several; assumption.
Qed.


(** C8, as the code has it. Whatever the lookup does outside is added
    to the record as [evs]: every workbook it loads is loaded
    read-only, and when the lookup returns, every workbook it loaded
    has been closed. Nothing guards the commands between the load and
    the close: when setting the values of the combobox raises, the
    exception leaves the lookup with the workbook still open. *)
Theorem check_and_display_handles (p : Process) :
  (exists evs,
      events (snd (check_and_display_excel_file host join p))
      = events p ++ evs
      /\ loads_read_only evs = true
      /\ (fst (check_and_display_excel_file host join p) = Returned tt ->
          open_workbooks evs [] = []))
  /\ (forall folder names excel_file workbook e,
         folder_path (selector p) = Some folder -> folder <> "" ->
         os_listdir host folder = Returned names ->
         excel_files_in names = [excel_file] ->
         tcl_error host (LabelConfigText ("Excel File: " ++ excel_file)%string)
         = None ->
         load_workbook host (join folder excel_file) = Returned workbook ->
         tcl_error host (ComboSetValues (sheetnames workbook)) = Some e ->
         fst (check_and_display_excel_file host join p) = Raised e
         /\ events (snd (check_and_display_excel_file host join p))
            = events p
                ++ [Listdir folder; LoadWorkbook (join folder excel_file) true]
         /\ open_workbooks
              [Listdir folder; LoadWorkbook (join folder excel_file) true] []
            = [join folder excel_file]).
Proof.
  split.
  - destruct (folder_path (selector p)) as [folder|] eqn:Hfolder.
    2:{ exists []. rewrite check_and_display_guard by auto.
        rewrite app_nil_r. auto. }
    destruct (string_dec folder "") as [-> | Hne].
    { exists []. rewrite check_and_display_guard by auto.
      rewrite app_nil_r. auto. }
    rewrite (check_and_display_lists p folder Hfolder Hne).
    destruct (os_listdir host folder) as [names | e].
    2:{ exists [Listdir folder]. auto. }
    destruct (excel_files_in names) as [|excel_file [|other rest]];
      unfold bind, tk, open_workbook, close_workbook, emit, update_selector,
        modify, lift, ret, get, bind;
      repeat match goal with
        | |- context [match tcl_error host ?c with _ => _ end] =>
            destruct (tcl_error host c)
        | |- context [match load_workbook host ?x with _ => _ end] =>
            destruct (load_workbook host x)
        | |- context [match sheetnames ?w with _ => _ end] =>
            destruct (sheetnames w)
        end;
      cbn; rewrite <- ?app_assoc; eexists;
      (split; [reflexivity|]); (split; [reflexivity|]);
      intros Hret; try discriminate Hret; cbn;
      try (destruct (string_dec _ _); congruence); auto.
  - intros folder names excel_file workbook e
           Hfolder Hne Hlist Hone Hlabel Hload Hvalues.
    assert (Hrun :
              check_and_display_excel_file host join p
              = (Raised e,
                 {| selector :=
                      run_command
                        (LabelConfigText ("Excel File: " ++ excel_file)%string)
                        (selector p);
                    events :=
                      (events p ++ [Listdir folder])
                        ++ [LoadWorkbook (join folder excel_file) true] |})).
    { rewrite (check_and_display_lists p folder Hfolder Hne), Hlist, Hone.
      unfold bind at 1. rewrite tk_done by (auto; discriminate).
      unfold bind at 1, open_workbook, bind at 1, lift. rewrite Hload.
      unfold bind at 1, emit, modify, ret at 1.
      unfold bind at 1, tk at 1. rewrite Hvalues. reflexivity. }
    rewrite Hrun. split; [reflexivity|]. split.
    + cbn [snd events]. rewrite <- app_assoc. reflexivity.
    + reflexivity.
Qed.

End LookupFacts.

Lemma check_and_display_no_folder_witness :
  check_and_display_excel_file (host_data tcl_ok) posix_join (process_at None)
  = (Returned tt, process_at None)
  /\ excel_file_label
       (selector (snd (check_and_display_excel_file (host_data tcl_ok)
                         posix_join (process_at None))))
     = excel_file_label (selector (process_at None))
  /\ sheet_values
       (selector (snd (check_and_display_excel_file (host_data tcl_ok)
                         posix_join (process_at None))))
     = sheet_values (selector (process_at None))
  /\ events (snd (check_and_display_excel_file (host_data tcl_ok)
                    posix_join (process_at None)))
     = events (process_at None).
Proof.
  exact (check_and_display_no_folder (host_data tcl_ok) posix_join
           (process_at None) (or_introl eq_refl)).
Defined.

Lemma spreadsheet_name_report : spreadsheet_name "report.xlsx".
Proof. apply qualifies_spreadsheet_name. reflexivity. Qed.

Lemma spreadsheet_name_not (name : string) :
  qualifies name = false -> ~ spreadsheet_name name.
Proof.
  intros Hq Hname. apply qualifies_spreadsheet_name in Hname. congruence.
Qed.

Lemma check_and_display_resolves_witness :
  (exists p',
      check_and_display_excel_file (host_data tcl_ok) posix_join
        (process_at (Some "/data/a")) = (Returned tt, p')
      /\ sheet_values (selector p') = ["Summary"; "Data"]
      /\ excel_file_label (selector p') = "Excel File: report.xlsx")
  /\ (exists p',
         check_and_display_excel_file (host_data tcl_ok) posix_join
           (process_at (Some "/data/d"))
         = (Raised (InvalidFileException "/data/d/broken.xlsx"), p'))
  /\ (exists p',
         check_and_display_excel_file (host_data tcl_ok) posix_join
           (process_at (Some "/data/b")) = (Returned tt, p')
         /\ no_selection (selector p'))
  /\ (exists p',
         check_and_display_excel_file (host_data tcl_ok) posix_join
           (process_at (Some "/data/c")) = (Returned tt, p')
         /\ no_selection (selector p')).
Proof.
  split; [|split; [|split]].
  - apply (proj1 (check_and_display_resolves (host_data tcl_ok) posix_join
                    (process_at (Some "/data/a")) "/data/a"
                    ["report.xlsx"; "~$report.xlsx"; "notes.txt"]
                    eq_refl ltac:(discriminate) eq_refl (fun c => eq_refl))
             [] "report.xlsx" ["~$report.xlsx"; "notes.txt"]
             {| sheetnames := ["Summary"; "Data"] |}).
    + reflexivity.
    + exact spreadsheet_name_report.
    + repeat constructor; apply spreadsheet_name_not; reflexivity.
    + reflexivity.
  - apply (proj1 (proj2
                    (check_and_display_resolves (host_data tcl_ok) posix_join
                       (process_at (Some "/data/d")) "/data/d" ["broken.xlsx"]
                       eq_refl ltac:(discriminate) eq_refl (fun c => eq_refl)))
             [] "broken.xlsx" []).
    + reflexivity.
    + apply qualifies_spreadsheet_name. reflexivity.
    + constructor.
    + reflexivity.
  - apply (proj1 (proj2 (proj2
                    (check_and_display_resolves (host_data tcl_ok) posix_join
                       (process_at (Some "/data/b")) "/data/b" ["readme.md"]
                       eq_refl ltac:(discriminate) eq_refl (fun c => eq_refl))))).
    repeat constructor; apply spreadsheet_name_not; reflexivity.
  - apply (proj2 (proj2 (proj2
                    (check_and_display_resolves (host_data tcl_ok) posix_join
                       (process_at (Some "/data/c")) "/data/c"
                       ["q1.xlsx"; "q2.xlsx"]
                       eq_refl ltac:(discriminate) eq_refl (fun c => eq_refl))))
             [] "q1.xlsx" [] "q2.xlsx" []).
    + reflexivity.
    + apply qualifies_spreadsheet_name. reflexivity.
    + apply qualifies_spreadsheet_name. reflexivity.
Defined.

(** C4, as stated, fails. The folder [/data/d] holds exactly one
    qualifying file, [broken.xlsx], and the lookup does not return a
    sheet list: the spreadsheet library cannot read the file and its
    exception leaves the lookup. The folder [/data/b] holds no
    qualifying file, and with the combobox gone the lookup raises
    instead of producing the placeholder state. *)
Lemma check_and_display_unreadable_file :
  os_listdir (host_data tcl_ok) "/data/d" = Returned ["broken.xlsx"]
  /\ excel_files_in ["broken.xlsx"] = ["broken.xlsx"]
  /\ fst (check_and_display_excel_file (host_data tcl_ok) posix_join
            (process_at (Some "/data/d")))
     = Raised (InvalidFileException "/data/d/broken.xlsx")
  /\ os_listdir (host_data tcl_combobox_gone) "/data/b" = Returned ["readme.md"]
  /\ excel_files_in ["readme.md"] = []
  /\ fst (check_and_display_excel_file (host_data tcl_combobox_gone)
            posix_join (process_at (Some "/data/b")))
     = Raised (TclError "invalid command name").
Proof. repeat split. Qed.

Example check_and_display_one_file :
  check_and_display_excel_file (host_data tcl_ok) posix_join
    (process_at (Some "/data/a"))
  = (Returned tt,
     {| selector := {| folder_path := Some "/data/a";
                       excel_file_label := "Excel File: report.xlsx";
                       sheet_values := ["Summary"; "Data"];
                       sheet_text := "Summary" |};
        events := [Listdir "/data/a";
                   LoadWorkbook "/data/a/report.xlsx" true;
                   CloseWorkbook "/data/a/report.xlsx"] |}).
Proof. reflexivity. Qed.

Example check_and_display_no_file :
  check_and_display_excel_file (host_data tcl_ok) posix_join
    (process_at (Some "/data/b"))
  = (Returned tt,
     {| selector := {| folder_path := Some "/data/b";
                       excel_file_label := placeholder_text;
                       sheet_values := [];
                       sheet_text := "" |};
        events := [Listdir "/data/b"] |}).
Proof. reflexivity. Qed.

Example check_and_display_two_files :
  check_and_display_excel_file (host_data tcl_ok) posix_join
    (process_at (Some "/data/c"))
  = (Returned tt,
     {| selector := {| folder_path := Some "/data/c";
                       excel_file_label := placeholder_text;
                       sheet_values := [];
                       sheet_text := "" |};
        events := [Listdir "/data/c"] |}).
Proof. reflexivity. Qed.



(** C8, as stated, fails: the folder holds one qualifying file, the
    workbook is loaded, setting the values of the combobox raises, and the
    lookup is left by that exception with the workbook still open. *)
Lemma check_and_display_leaks :
  check_and_display_excel_file (host_data tcl_combobox_gone) posix_join
    (process_at (Some "/data/a"))
  = (Raised (TclError "invalid command name"),
     {| selector := {| folder_path := Some "/data/a";
                       excel_file_label := "Excel File: report.xlsx";
                       sheet_values := [];
                       sheet_text := "" |};
        events := [Listdir "/data/a";
                   LoadWorkbook "/data/a/report.xlsx" true] |})
  /\ open_workbooks [Listdir "/data/a";
                     LoadWorkbook "/data/a/report.xlsx" true] []
     = ["/data/a/report.xlsx"].
Proof. split; reflexivity. Qed.

(** C9. A name qualifies exactly when it ends with [.xlsx] and does not
    start with [~$]. The test reads the name and nothing else: a name
    ending in [.XLSX] never qualifies, and any name of the listing that
    ends in [.xlsx] and does not start with [~$] is kept, whatever kind
    of entry carries it, a sub-directory included. *)
Theorem qualifies_by_name :
  (forall f,
      qualifies f = true
      <-> (exists stem, f = (stem ++ ".xlsx")%string)
          /\ ~ (exists rest, f = ("~$" ++ rest)%string))
  /\ (forall stem, qualifies (stem ++ ".XLSX")%string = false)
  /\ (forall names f,
         In f (excel_files_in names) <-> In f names /\ qualifies f = true)
  /\ (forall names stem,
         In (stem ++ ".xlsx")%string names ->
         startswith (stem ++ ".xlsx")%string "~$" = false ->
         In (stem ++ ".xlsx")%string (excel_files_in names)).
Proof.
  split; [|split; [|split]].
  - intros f. unfold qualifies.
    rewrite andb_true_iff, negb_true_iff, endswith_iff.
    rewrite <- startswith_iff, not_true_iff_false. reflexivity.
  - intros stem. unfold qualifies.
    destruct (endswith (stem ++ ".XLSX")%string ".xlsx") eqn:Hends;
      [|reflexivity].
    apply endswith_iff in Hends. destruct Hends as [front Hfront].
    apply append_suffix_inj in Hfront; [discriminate | reflexivity].
  - intros names f. unfold excel_files_in. apply filter_In.
  - intros names stem Hin Hstart. unfold excel_files_in.
    apply filter_In. split; [exact Hin|].
    unfold qualifies. rewrite Hstart, andb_true_r.
    apply endswith_iff. exists stem. reflexivity.
Qed.

Example qualifies_examples :
  qualifies "report.xlsx" = true
  /\ qualifies "~$report.xlsx" = false
  /\ qualifies "REPORT.XLSX" = false
  /\ qualifies "report.xls" = false
  /\ qualifies ".xlsx" = true
  /\ excel_files_in ["old.xlsx"; "notes.txt"] = ["old.xlsx"].
Proof. repeat split. Qed.

(* ================================================================== *)
(** * Further properties *)

(** ** Distinct names *)

Lemma existsb_eqb_In (name : string) (names : list string) :
  existsb (String.eqb name) names = true <-> In name names.
Proof.
  rewrite existsb_exists. split.
  - intros (x & Hx & Heq). apply String.eqb_eq in Heq. congruence.
  - intros Hin. exists name. split; [exact Hin | apply String.eqb_refl].
Qed.

Lemma distinct_names_NoDup (names : list string) :
  distinct_names names = true <-> NoDup names.
Proof.
  induction names as [|name rest IH]; simpl.
  - split; [constructor | reflexivity].
  - rewrite andb_true_iff, negb_true_iff, IH. split.
    + intros [Hnew Hrest]. constructor; [|exact Hrest].
      intros Hin. apply existsb_eqb_In in Hin. congruence.
    + intros Hnodup. inversion Hnodup as [|x l Hnew Hrest]; subst.
      split; [|exact Hrest].
      destruct (existsb (String.eqb name) rest) eqn:Hex; [|reflexivity].
      apply existsb_eqb_In in Hex. contradiction.
Qed.

(** Setting a key the dictionary does not hold appends it. *)
Lemma dict_set_fresh (V : Type) (d : list (string * V)) (k : string) (v : V) :
  ~ In k (dict_keys d) -> dict_set d k v = d ++ [(k, v)].
Proof.
  unfold dict_keys. induction d as [|[k' v'] d IH]; simpl; intros Hfresh.
  - reflexivity.
  - destruct (String.eqb_spec k' k) as [-> | Hne].
    + exfalso. apply Hfresh. left. reflexivity.
    + rewrite IH; [reflexivity|]. intros Hin. apply Hfresh. right. exact Hin.
Qed.

(** ** The walk of a coherent file system *)

Section CoherentFacts.

Variable fs : FileSystem.
Variable join : string -> string -> string.

Section CoherentLoop.

Variable depth : nat.
Variable path : string.
Hypothesis build_structure_tree_of :
  forall sub calls,
    coherent fs join depth sub = true ->
    build_structure fs depth sub calls
    = (Returned (tree_of fs depth sub),
       calls ++ map SysScandir
                    (sub :: traverse_structure join (tree_of fs depth sub) sub)).

Lemma scan_entries_tree_of (todo : list DirEntry) :
  forall structure calls,
    forallb
      (fun entry =>
         is_dir_answers entry
         && String.eqb (entry_path entry) (join path (entry_name entry))
         && (negb (is_directory entry)
             || coherent fs join depth (entry_path entry)))
      todo = true ->
    NoDup (dict_keys structure
             ++ map entry_name (filter is_directory todo)) ->
    scan_entries (build_structure fs depth) todo structure calls
    = (Returned (structure ++ items_of fs depth todo),
       calls ++ map SysScandir
                    (flat_map (emitted_block join path) (items_of fs depth todo))).
Proof.
  induction todo as [|entry todo IH]; intros structure calls Hall Hnodup.
  - simpl. unfold ret. rewrite !app_nil_r. reflexivity.
  - cbn [forallb] in Hall. apply andb_true_iff in Hall.
    destruct Hall as [Hentry Hall]. apply andb_true_iff in Hentry.
    destruct Hentry as [Hentry Hsub]. apply andb_true_iff in Hentry.
    destruct Hentry as [Hanswers Hpath]. apply String.eqb_eq in Hpath.
    rewrite scan_entries_step. unfold items_of in *. cbn [filter] in *.
    pose proof (eq_refl (is_directory entry)) as Hdir.
    unfold is_directory at 2 in Hdir. unfold is_dir_answers in Hanswers.
    destruct (entry_is_dir entry) as [[|]|e]; [| |discriminate];
      rewrite Hdir in Hsub, Hnodup |- *.
    + cbn [negb orb] in Hsub. cbn [map] in Hnodup |- *.
      rewrite (build_structure_tree_of _ calls Hsub).
      rewrite dict_set_fresh.
      2:{ intros Hin. apply NoDup_remove_2 in Hnodup. apply Hnodup.
          apply in_or_app. left. exact Hin. }
      rewrite IH; [|exact Hall|].
      2:{ unfold dict_keys in *. rewrite map_app, <- app_assoc. exact Hnodup. }
      f_equal.
      * rewrite <- app_assoc. reflexivity.
      * cbn [flat_map]. unfold emitted_block at 2. cbn [fst snd].
        rewrite <- Hpath, map_app, <- app_assoc. reflexivity.
    + apply IH; assumption.
Qed.

End CoherentLoop.

(** The walk of a coherent hierarchy returns the tree read off the
    listings and lists the directories in the order of the flattening. *)
Lemma build_structure_tree_of (depth : nat) :
  forall path calls,
    coherent fs join depth path = true ->
    build_structure fs depth path calls
    = (Returned (tree_of fs depth path),
       calls ++ map SysScandir
                    (path :: traverse_structure join (tree_of fs depth path) path)).
Proof.
  induction depth as [|depth IH]; intros path calls Hcoherent.
  - discriminate.
  - cbn [coherent] in Hcoherent. cbn [tree_of].
    destruct (os_scandir fs path) as [entries|e] eqn:Hscan; [|discriminate].
    apply andb_true_iff in Hcoherent. destruct Hcoherent as [Hnames Hall].
    apply distinct_names_NoDup in Hnames.
    cbn [build_structure]. unfold bind at 1, log, modify.
    unfold bind at 1, lift_os. rewrite Hscan. unfold ret at 1.
    unfold bind at 1.
    rewrite (scan_entries_tree_of depth path IH entries [] _ Hall Hnames).
    unfold ret. rewrite traverse_structure_blocks.
    cbn [app map]. rewrite <- app_assoc. reflexivity.
Qed.

(** A coherent hierarchy is walkable. *)
Lemma coherent_walkable (depth : nat) :
  forall path, coherent fs join depth path = true ->
               walkable fs depth path = true.
Proof.
  induction depth as [|depth IH]; intros path Hcoherent; [discriminate|].
  cbn [coherent] in Hcoherent. cbn [walkable].
  destruct (os_scandir fs path) as [entries|e]; [|discriminate].
  apply andb_true_iff in Hcoherent. destruct Hcoherent as [_ Hall].
  rewrite forallb_forall in Hall |- *. intros entry Hin.
  specialize (Hall entry Hin). apply andb_true_iff in Hall.
  destruct Hall as [Hentry Hsub]. apply andb_true_iff in Hentry.
  destruct Hentry as [Hanswers _]. rewrite Hanswers. cbn [andb].
  destruct (is_directory entry); [|reflexivity].
  cbn [negb orb] in Hsub |- *. apply IH. exact Hsub.
Qed.

End CoherentFacts.

(** ** The walk: order, visits, depth and failure *)

(** X1. The mapping a walk returns keeps the order of the listings. On a
    coherent hierarchy [get_folder_structure] returns [tree_of]: at every
    level one key per sub-directory, in the order [os.scandir] yields the
    sub-directories, each with the mapping of that sub-directory; so the
    keys under the root are the names of the listed sub-directories in
    listing order. *)
Theorem get_folder_structure_listing_order
    (fs : FileSystem) (join : string -> string -> string)
    (depth : nat) (root_path : string) (calls : list syscall) :
  os_path_exists fs root_path = true ->
  coherent fs join depth root_path = true ->
  fst (get_folder_structure fs depth root_path calls)
  = Returned (tree_of fs depth root_path)
  /\ (forall entries,
         os_scandir fs root_path = Returned entries ->
         dict_keys (entries_of (tree_of fs depth root_path))
         = map entry_name (filter is_directory entries)).
Proof.
  intros Hexists Hcoherent. split.
  - unfold get_folder_structure, bind, log, modify. rewrite Hexists.
    cbn [negb]. rewrite (build_structure_tree_of fs join depth _ _ Hcoherent).
    reflexivity.
  - intros entries Hscan. destruct depth as [|depth]; [discriminate|].
    cbn [tree_of]. rewrite Hscan. cbn [entries_of]. unfold dict_keys.
    rewrite map_map. reflexivity.
Qed.

Lemma get_folder_structure_listing_order_witness :
  fst (get_folder_structure fs_data 3 "/data" [])
  = Returned (tree_of fs_data 3 "/data")
  /\ (forall entries,
         os_scandir fs_data "/data" = Returned entries ->
         dict_keys (entries_of (tree_of fs_data 3 "/data"))
         = map entry_name (filter is_directory entries)).
Proof.
  exact (get_folder_structure_listing_order fs_data posix_join 3 "/data" []
           eq_refl eq_refl).
Defined.

(** X2. A walk lists each directory once, a parent before what is below it:
    after the existence test the log holds the listing of the root and
    then, in the order of the flattening of the returned mapping, the
    listing of every folder of that mapping. *)
Theorem get_folder_structure_visits
    (fs : FileSystem) (join : string -> string -> string)
    (depth : nat) (root_path : string) (calls : list syscall) :
  os_path_exists fs root_path = true ->
  coherent fs join depth root_path = true ->
  exists tree,
    get_folder_structure fs depth root_path calls
    = (Returned tree,
       calls ++ SysExists root_path
         :: map SysScandir
              (root_path :: traverse_structure join tree root_path)).
Proof.
  intros Hexists Hcoherent. exists (tree_of fs depth root_path).
  unfold get_folder_structure, bind, log, modify. rewrite Hexists.
  cbn [negb]. rewrite (build_structure_tree_of fs join depth _ _ Hcoherent).
  rewrite <- app_assoc. reflexivity.
Qed.

Lemma get_folder_structure_visits_witness :
  exists tree,
    get_folder_structure fs_data 3 "/data" []
    = (Returned tree,
       [] ++ SysExists "/data"
         :: map SysScandir
              ("/data" :: traverse_structure posix_join tree "/data")).
Proof.
  exact (get_folder_structure_visits fs_data posix_join 3 "/data" []
           eq_refl eq_refl).
Defined.

(** X3. A root that exists and cannot be listed (a regular file, a folder
    without permission) makes the walk raise the exception of the
    listing, not the [ValueError] of a missing root. *)
Theorem get_folder_structure_unlistable_root
    (fs : FileSystem) (depth : nat) (root_path : string)
    (calls : list syscall) (e : exn) :
  os_path_exists fs root_path = true ->
  os_scandir fs root_path = Raised e ->
  get_folder_structure fs (S depth) root_path calls
  = (Raised (PyExn e), calls ++ [SysExists root_path; SysScandir root_path]).
Proof.
  intros Hexists Hscan.
  unfold get_folder_structure, bind, log, modify. rewrite Hexists.
  cbn [negb build_structure]. unfold bind, log, modify, lift_os.
  rewrite Hscan. unfold raise. rewrite <- app_assoc. reflexivity.
Qed.

Lemma get_folder_structure_unlistable_root_witness :
  get_folder_structure fs_data 3 "/data/notes.txt" []
  = (Raised (PyExn (NotADirectoryError "/data/notes.txt")),
     [] ++ [SysExists "/data/notes.txt"; SysScandir "/data/notes.txt"]).
Proof.
  exact (get_folder_structure_unlistable_root fs_data 2 "/data/notes.txt" []
           (NotADirectoryError "/data/notes.txt") eq_refl eq_refl).
Defined.

Section DepthFacts.

Variable fs : FileSystem.

Lemma scan_entries_deeper
    (shallow deep : string -> Scan FolderTree) :
  (forall path calls o calls',
      shallow path calls = (o, calls') -> o <> Raised DepthExhausted ->
      deep path calls = (o, calls')) ->
  forall todo structure calls o calls',
    scan_entries shallow todo structure calls = (o, calls') ->
    o <> Raised DepthExhausted ->
    scan_entries deep todo structure calls = (o, calls').
Proof.
  intros Hdeep. induction todo as [|entry todo IH];
    intros structure calls o calls' Hrun Hne.
  - exact Hrun.
  - rewrite scan_entries_step in Hrun |- *.
    destruct (entry_is_dir entry) as [[|]|e0];
      [| apply IH; assumption | exact Hrun].
    destruct (shallow (entry_path entry) calls) as [[sub|e] calls1] eqn:Hsub.
    + rewrite (Hdeep _ _ _ _ Hsub) by discriminate. apply IH; assumption.
    + injection Hrun as <- <-.
      rewrite (Hdeep _ _ _ _ Hsub); [reflexivity|].
      intros Heq. apply Hne. injection Heq as ->. reflexivity.
Qed.

Lemma build_structure_step (depth : nat) (path : string) :
  build_structure fs (S depth) path
  = (log (SysScandir path) ;;
     entries <- lift_os (os_scandir fs path) ;;
     structure <- scan_entries (build_structure fs depth) entries [] ;;
     ret (Node structure)).
Proof. reflexivity. Qed.

Lemma build_structure_deeper (depth : nat) :
  forall path calls o calls',
    build_structure fs depth path calls = (o, calls') ->
    o <> Raised DepthExhausted ->
    build_structure fs (S depth) path calls = (o, calls').
Proof.
  induction depth as [|depth IH]; intros path calls o calls' Hrun Hne.
  - cbn in Hrun. injection Hrun as <- _. congruence.
  - rewrite build_structure_step in Hrun |- *.
    unfold bind at 1 in Hrun. unfold bind at 1.
    destruct (log (SysScandir path) calls) as [[[]|e0] calls0]; [|exact Hrun].
    unfold bind at 1 in Hrun. unfold bind at 1.
    destruct (lift_os (os_scandir fs path) calls0) as [[entries|e1] calls1];
      [|exact Hrun].
    unfold bind in Hrun |- *.
    destruct (scan_entries (build_structure fs depth) entries [] calls1)
      as [[structure|e2] calls2] eqn:Hloop.
    + rewrite (scan_entries_deeper _ (build_structure fs (S depth))
                 IH _ _ _ _ _ Hloop)
        by discriminate.
      exact Hrun.
    + injection Hrun as <- <-.
      rewrite (scan_entries_deeper _ (build_structure fs (S depth))
                 IH _ _ _ _ _ Hloop);
        [reflexivity|].
      intros Heq. apply Hne. injection Heq as ->. reflexivity.
Qed.

Lemma build_structure_any_deeper (depth depth' : nat) :
  depth <= depth' ->
  forall path calls o calls',
    build_structure fs depth path calls = (o, calls') ->
    o <> Raised DepthExhausted ->
    build_structure fs depth' path calls = (o, calls').
Proof.
  induction 1 as [|depth' _ IH]; intros path calls o calls' Hrun Hne.
  - exact Hrun.
  - apply build_structure_deeper; [|exact Hne]. apply IH; assumption.
Qed.

(** X4. The depth granted to a walk matters only as a limit: a walk that
    ends otherwise than by exhausting its depth ends the same way, with
    the same mapping or exception and the same file-system calls, at
    every greater depth. *)
Theorem get_folder_structure_depth
    (depth depth' : nat) (root_path : string) (calls : list syscall) :
  depth <= depth' ->
  fst (get_folder_structure fs depth root_path calls)
  <> Raised DepthExhausted ->
  get_folder_structure fs depth' root_path calls
  = get_folder_structure fs depth root_path calls.
Proof.
  intros Hle Hne. unfold get_folder_structure in *.
  unfold bind, log, modify in *.
  destruct (negb (os_path_exists fs root_path)); [reflexivity|].
  destruct (build_structure fs depth root_path (calls ++ [SysExists root_path]))
    as [o calls'] eqn:Hrun.
  apply (build_structure_any_deeper depth depth' Hle _ _ _ _ Hrun).
  exact Hne.
Qed.

End DepthFacts.

Lemma get_folder_structure_depth_witness :
  get_folder_structure fs_data 7 "/data" []
  = get_folder_structure fs_data 3 "/data" [].
Proof.
  apply (get_folder_structure_depth fs_data 3 7 "/data" []).
  - repeat constructor.
  - discriminate.
Defined.

(** ** POSIX paths *)

Lemma append_assoc (a b c : string) :
  ((a ++ b) ++ c)%string = (a ++ (b ++ c))%string.
Proof.
  induction a as [|x a IH]; simpl; [reflexivity | rewrite IH; reflexivity].
Qed.

Lemma append_nil_r (a : string) : (a ++ "")%string = a.
Proof.
  induction a as [|x a IH]; simpl; [reflexivity | rewrite IH; reflexivity].
Qed.

Lemma append_inv_head (a b c : string) :
  (a ++ b)%string = (a ++ c)%string -> b = c.
Proof.
  induction a as [|x a IH]; simpl; intros Heq; [exact Heq|].
  injection Heq as Heq. apply IH. exact Heq.
Qed.

Lemma has_sep_append (a b : string) :
  has_sep (a ++ b) = has_sep a || has_sep b.
Proof.
  induction a as [|x a IH]; simpl; [reflexivity|].
  rewrite IH, orb_assoc. reflexivity.
Qed.

(** A string that ends with a name ends with the separator only when the
    name holds one. *)
Lemma ends_with_sep (name : string) :
  name <> "" ->
  forall front before,
    (front ++ name)%string = (before ++ "/")%string -> has_sep name = true.
Proof.
  intros Hne. induction front as [|a front IH]; intros before Heq.
  - simpl in Heq. rewrite Heq, has_sep_append. simpl. apply orb_true_r.
  - destruct before as [|b before]; simpl in Heq.
    + injection Heq as _ Heq. destruct front; simpl in Heq; congruence.
    + injection Heq as _ Heq. apply (IH before). exact Heq.
Qed.

(** Two names without separator that start equal paths are equal. *)
Lemma name_before_sep (n : string) :
  forall m x y,
    has_sep n = false -> has_sep m = false ->
    path_tail x -> path_tail y ->
    (n ++ x)%string = (m ++ y)%string -> n = m.
Proof.
  assert (Hhead : forall a m x y,
             has_sep (String a m) = false -> path_tail x ->
             x = (String a m ++ y)%string -> False).
  { intros a m x y Hsep [-> | [rest ->]] Heq; simpl in Heq; [discriminate|].
    injection Heq as <- _. simpl in Hsep. discriminate. }
  induction n as [|a n IH]; intros [|b m] x y Hn Hm Hx Hy Heq.
  - reflexivity.
  - exfalso. exact (Hhead b m x y Hm Hx Heq).
  - exfalso. symmetry in Heq. exact (Hhead a n y x Hn Hy Heq).
  - simpl in Heq, Hn, Hm. injection Heq as -> Heq.
    apply orb_false_iff in Hn. apply orb_false_iff in Hm.
    f_equal. apply (IH m x y); tauto.
Qed.

Lemma valid_name_relative (name : string) :
  valid_name name = true -> startswith name "/" = false.
Proof.
  unfold valid_name. destruct name as [|a name]; [discriminate|].
  intros Hvalid. apply andb_true_iff in Hvalid. destruct Hvalid as [_ Hsep].
  apply negb_true_iff in Hsep. cbn [has_sep] in Hsep.
  apply orb_false_iff in Hsep. destruct Hsep as [Ha _].
  change (startswith (String a name) "/") with (Ascii.eqb "/" a && true).
  rewrite Ascii.eqb_sym, Ha. reflexivity.
Qed.

(** Joining a relative component puts it after the base of the path. *)
Lemma posix_join_relative (path name : string) :
  startswith name "/" = false ->
  posix_join path name = (join_base path ++ name)%string.
Proof.
  intros Hrel. unfold posix_join, join_base. rewrite Hrel. simpl.
  destruct (String.eqb path ""); [reflexivity|].
  destruct (endswith path "/"); [reflexivity|].
  rewrite append_assoc. reflexivity.
Qed.

Lemma join_base_prefix (path : string) :
  exists sep, join_base path = (path ++ sep)%string.
Proof.
  unfold join_base. destruct (String.eqb_spec path "") as [-> | Hne].
  - exists "". reflexivity.
  - destruct (endswith path "/").
    + exists "". symmetry. apply append_nil_r.
    + exists "/". reflexivity.
Qed.

(** The path of a folder with a valid name is not empty and does not end
    with the separator, so the next name is joined after [path/]. *)
Lemma join_base_child (base name : string) :
  valid_name name = true ->
  join_base (base ++ name) = ((base ++ name) ++ "/")%string.
Proof.
  intros Hvalid. unfold valid_name in Hvalid.
  apply andb_true_iff in Hvalid. destruct Hvalid as [Hne Hsep].
  apply negb_true_iff in Hne, Hsep. apply String.eqb_neq in Hne.
  unfold join_base.
  destruct (String.eqb_spec (base ++ name) "") as [Hempty | _].
  - exfalso. apply (f_equal String.length) in Hempty.
    rewrite length_append in Hempty. destruct name; simpl in *; [congruence|lia].
  - destruct (endswith (base ++ name) "/") eqn:Hends; [|reflexivity].
    apply endswith_iff in Hends. destruct Hends as [before Hbefore].
    apply (ends_with_sep name Hne) in Hbefore. congruence.
Qed.

(** ** The flattening with POSIX paths *)

Lemma startswith_trans (a b c : string) :
  startswith b a = true -> startswith c b = true -> startswith c a = true.
Proof.
  rewrite !startswith_iff. intros [r1 ->] [r2 ->].
  exists (r1 ++ r2)%string. apply append_assoc.
Qed.

Lemma all_names_Node (test : string -> bool)
    (entries : list (string * FolderTree)) :
  all_names test (Node entries) = true
  <-> Forall (fun entry => test (fst entry) = true
                           /\ all_names test (snd entry) = true) entries.
Proof.
  cbn [all_names]. rewrite forallb_forall, Forall_forall.
  split; intros H entry Hin; specialize (H entry Hin).
  - apply andb_true_iff. exact H.
  - apply andb_true_iff in H. exact H.
Qed.

(** X5. Every flattened path starts with the root path: when no folder name
    of the tree starts with the separator, [posixpath.join] never
    discards what was joined so far. *)
Theorem traverse_structure_under_root (structure : FolderTree) :
  forall root_path,
    all_names (fun name => negb (startswith name "/")) structure = true ->
    Forall (fun full_path => startswith full_path root_path = true)
           (traverse_structure posix_join structure root_path).
Proof.
  induction structure as [entries IH] using FolderTree_forall_ind.
  intros root_path Hnames. apply all_names_Node in Hnames.
  rewrite traverse_structure_blocks. apply Forall_flat_map.
  rewrite Forall_forall in IH, Hnames |- *. intros entry Hin.
  destruct (Hnames entry Hin) as [Hrel Hsub]. apply negb_true_iff in Hrel.
  assert (Hchild : startswith (posix_join root_path (fst entry)) root_path
                   = true).
  { rewrite (posix_join_relative _ _ Hrel).
    destruct (join_base_prefix root_path) as [sep ->].
    apply startswith_iff. exists (sep ++ fst entry)%string.
    apply append_assoc. }
  unfold emitted_block. constructor; [exact Hchild|].
  eapply Forall_impl; [|exact (IH entry Hin _ Hsub)].
  intros full_path Hunder.
  exact (startswith_trans _ _ _ Hchild Hunder).
Qed.

Lemma traverse_structure_under_root_witness :
  Forall (fun full_path => startswith full_path "/root" = true)
         (traverse_structure posix_join tree_A_B_C "/root").
Proof.
  exact (traverse_structure_under_root tree_A_B_C "/root" eq_refl).
Defined.

(** Below a folder whose path is [base ++ name], every flattened path is
    that path, a separator and more. *)
Lemma traverse_structure_below (structure : FolderTree) :
  forall base name,
    valid_name name = true ->
    all_names valid_name structure = true ->
    Forall (fun full_path =>
              exists rest,
                full_path = ((base ++ name) ++ "/" ++ rest)%string)
           (traverse_structure posix_join structure (base ++ name)%string).
Proof.
  induction structure as [entries IH] using FolderTree_forall_ind.
  intros base name Hname Hnames. apply all_names_Node in Hnames.
  rewrite traverse_structure_blocks. apply Forall_flat_map.
  rewrite Forall_forall in IH, Hnames |- *. intros entry Hin.
  destruct (Hnames entry Hin) as [Hentry Hsub].
  unfold emitted_block.
  rewrite (posix_join_relative _ _ (valid_name_relative _ Hentry)).
  rewrite (join_base_child base name Hname).
  constructor.
  - exists (fst entry). rewrite !append_assoc. reflexivity.
  - eapply Forall_impl;
      [|exact (IH entry Hin ((base ++ name) ++ "/")%string (fst entry)
                  Hentry Hsub)].
    intros full_path [rest ->]. exists (fst entry ++ "/" ++ rest)%string.
    rewrite !append_assoc. reflexivity.
Qed.

(** The paths emitted for one key are the base, the key and a tail. *)
Lemma emitted_block_form (parent_path : string) (entry : string * FolderTree)
    (full_path : string) :
  valid_name (fst entry) = true ->
  all_names valid_name (snd entry) = true ->
  In full_path (emitted_block posix_join parent_path entry) ->
  exists tail,
    path_tail tail
    /\ full_path = (join_base parent_path ++ (fst entry ++ tail))%string.
Proof.
  intros Hentry Hsub Hin. unfold emitted_block in Hin.
  rewrite (posix_join_relative _ _ (valid_name_relative _ Hentry)) in Hin.
  destruct Hin as [<- | Hin].
  - exists "". split; [left; reflexivity|]. rewrite append_nil_r. reflexivity.
  - pose proof (traverse_structure_below (snd entry) (join_base parent_path)
                  (fst entry) Hentry Hsub) as Hbelow.
    rewrite Forall_forall in Hbelow. destruct (Hbelow _ Hin) as [rest ->].
    exists ("/" ++ rest)%string. split; [right; exists rest; reflexivity|].
    rewrite !append_assoc. reflexivity.
Qed.

Lemma valid_name_no_sep (name : string) :
  valid_name name = true -> has_sep name = false.
Proof.
  unfold valid_name. intros Hvalid. apply andb_true_iff in Hvalid.
  destruct Hvalid as [_ Hsep]. apply negb_true_iff in Hsep. exact Hsep.
Qed.

Lemma unique_keys_Node (entries : list (string * FolderTree)) :
  unique_keys (Node entries) = true
  <-> NoDup (dict_keys entries)
      /\ Forall (fun entry => unique_keys (snd entry) = true) entries.
Proof.
  cbn [unique_keys].
  rewrite andb_true_iff, distinct_names_NoDup, forallb_forall, Forall_forall.
  reflexivity.
Qed.

(** X6. No path occurs twice in the flattened list: with the keys of every
    mapping distinct and every folder name valid (not empty, no
    separator in it), two folders of the tree never get the same path. *)
Theorem traverse_structure_no_duplicates (structure : FolderTree) :
  forall parent_path,
    unique_keys structure = true ->
    all_names valid_name structure = true ->
    NoDup (traverse_structure posix_join structure parent_path).
Proof.
  induction structure as [entries IH] using FolderTree_forall_ind.
  intros parent_path Hkeys Hnames.
  apply unique_keys_Node in Hkeys. destruct Hkeys as [Hnodup Hkeys].
  apply all_names_Node in Hnames.
  rewrite traverse_structure_blocks.
  induction entries as [|entry entries IHentries]; [constructor|].
  inversion IH as [|x l IHentry IHrest]; subst.
  inversion Hkeys as [|x l Hkentry Hkrest]; subst.
  inversion Hnames as [|x l [Hentry Hsub] Hnrest]; subst.
  unfold dict_keys in Hnodup. cbn [map] in Hnodup.
  inversion Hnodup as [|x l Hfresh Hnodup']; subst.
  cbn [flat_map]. apply NoDup_app.
  - unfold emitted_block.
    rewrite (posix_join_relative _ _ (valid_name_relative _ Hentry)).
    constructor; [|apply IHentry; assumption].
    intros Hin.
    pose proof (traverse_structure_below (snd entry) (join_base parent_path)
                  (fst entry) Hentry Hsub) as Hbelow.
    rewrite Forall_forall in Hbelow. destruct (Hbelow _ Hin) as [rest Hrest].
    apply (f_equal String.length) in Hrest.
    rewrite !length_append in Hrest. simpl in Hrest. lia.
  - apply IHentries; assumption.
  - intros full_path Hin Hin'. apply in_flat_map in Hin'.
    destruct Hin' as (other & Hother & Hin').
    rewrite Forall_forall in Hnrest. destruct (Hnrest other Hother) as [Ho Hosub].
    destruct (emitted_block_form _ _ _ Hentry Hsub Hin) as (t1 & Ht1 & ->).
    destruct (emitted_block_form _ _ _ Ho Hosub Hin') as (t2 & Ht2 & Heq).
    apply append_inv_head in Heq.
    apply name_before_sep in Heq;
      [| apply valid_name_no_sep; assumption
       | apply valid_name_no_sep; assumption | assumption | assumption].
    apply Hfresh. rewrite Heq. apply in_map. exact Hother.
Qed.

Lemma traverse_structure_no_duplicates_witness :
  NoDup (traverse_structure posix_join tree_A_B_C "/root").
Proof.
  exact (traverse_structure_no_duplicates tree_A_B_C "/root" eq_refl eq_refl).
Defined.

(** ** Stripping white space *)

Section DropSpaces.

Variable forward : bool.

Lemma drop_spaces_unfold (l : list ascii) :
  drop_spaces forward l
  = match space_width forward l with
    | O => l
    | S k => drop_spaces forward (skipn (S k) l)
    end.
Proof.
  destruct l as [|a [|b [|c l]]]; cbn [drop_spaces space_width].
  - reflexivity.
  - destruct (is_space1 a); reflexivity.
  - destruct (is_space1 a); [reflexivity|].
    destruct (if forward then is_space2 a b else is_space2 b a); reflexivity.
  - destruct (is_space1 a); [reflexivity|].
    destruct (if forward then is_space2 a b else is_space2 b a);
      [reflexivity|].
    destruct (if forward then is_space3 a b c else is_space3 c b a);
      reflexivity.
Qed.

Lemma space_width_length (l : list ascii) :
  space_width forward l <= length l.
Proof.
  destruct l as [|a [|b [|c l]]]; cbn [space_width length];
    repeat match goal with
      | |- context [if ?t then _ else _] => destruct t
      end; lia.
Qed.

Lemma drop_spaces_within (n : nat) :
  forall l, length l <= n ->
            space_width forward (drop_spaces forward l) = 0
            /\ exists front, l = front ++ drop_spaces forward l.
Proof.
  induction n as [|n IH]; intros l Hlen; rewrite drop_spaces_unfold.
  - destruct l; [|simpl in Hlen; lia]. split; [reflexivity|].
    exists []. reflexivity.
  - destruct (space_width forward l) as [|k] eqn:Hwidth.
    + split; [exact Hwidth | exists []; reflexivity].
    + pose proof (space_width_length l) as Hfits.
      destruct (IH (skipn (S k) l)) as [Hnone [front Hfront]].
      { rewrite length_skipn. lia. }
      split; [exact Hnone|].
      exists (firstn (S k) l ++ front).
      rewrite <- app_assoc, <- Hfront. symmetry. apply firstn_skipn.
Qed.

Lemma drop_spaces_clean (l : list ascii) :
  space_width forward (drop_spaces forward l) = 0.
Proof. exact (proj1 (drop_spaces_within (length l) l (le_n _))). Qed.

Lemma drop_spaces_suffix (l : list ascii) :
  exists front, l = front ++ drop_spaces forward l.
Proof. exact (proj2 (drop_spaces_within (length l) l (le_n _))). Qed.

Lemma drop_spaces_nothing (l : list ascii) :
  space_width forward l = 0 -> drop_spaces forward l = l.
Proof. intros Hwidth. rewrite drop_spaces_unfold, Hwidth. reflexivity. Qed.

(** Bytes that do not start with white space have no prefix that does. *)
Lemma space_width_prefix (t u : list ascii) :
  space_width forward (t ++ u) = 0 -> space_width forward t = 0.
Proof.
  destruct t as [|a [|b [|c t]]]; cbn [space_width app]; intros Hwidth;
    repeat match goal with
      | |- context [if ?x then _ else _] => destruct x eqn:?
      | H : context [if ?x then _ else _] |- _ => destruct x eqn:?
      | H : context [match ?x with _ => _ end] |- _ => destruct x eqn:?
      end; try reflexivity; try discriminate; try congruence.
Qed.

End DropSpaces.

(** Stripping a stripped string changes nothing. *)
Lemma py_strip_idempotent (s : string) : py_strip (py_strip s) = py_strip s.
Proof.
  unfold py_strip. rewrite list_ascii_of_string_of_list_ascii.
  set (m := drop_spaces true (list_ascii_of_string s)).
  assert (Hclean : space_width true (rev (drop_spaces false (rev m))) = 0).
  { destruct (drop_spaces_suffix false (rev m)) as [front Hfront].
    apply (space_width_prefix true _ (rev front)).
    rewrite <- rev_app_distr, <- Hfront, rev_involutive.
    apply drop_spaces_clean. }
  rewrite (drop_spaces_nothing true _ Hclean), rev_involutive.
  rewrite (drop_spaces_nothing false (drop_spaces false (rev m)))
    by apply drop_spaces_clean.
  reflexivity.
Qed.

Example py_strip_examples :
  py_strip "  /data/a " = "/data/a"
  /\ py_strip "/data/my folder" = "/data/my folder"
  /\ py_strip "   " = ""
  /\ py_strip "" = ""
  /\ py_strip "　/data/フォルダ " = "/data/フォルダ".
Proof. repeat split. Qed.

(** ** The lookup: what is shown, what is loaded *)

Section LookupMore.

Variable host : Host.
Variable join : string -> string -> string.

(** X7. With one qualifying file that loads, the combobox shows the first
    sheet of the workbook; when the workbook has no sheet the values are
    emptied and the shown text is left as it was. *)
Theorem check_and_display_shows_first_sheet
    (p : Process) (folder : string) (names : list string)
    (excel_file : string) (workbook : Workbook) :
  folder_path (selector p) = Some folder -> folder <> "" ->
  os_listdir host folder = Returned names ->
  (forall c, tcl_error host c = None) ->
  excel_files_in names = [excel_file] ->
  load_workbook host (join folder excel_file) = Returned workbook ->
  fst (check_and_display_excel_file host join p) = Returned tt
  /\ sheet_text (selector (snd (check_and_display_excel_file host join p)))
     = match sheetnames workbook with
       | [] => sheet_text (selector p)
       | first_sheet :: _ => first_sheet
       end
  /\ sheet_values (selector (snd (check_and_display_excel_file host join p)))
     = sheetnames workbook.
Proof.
  intros Hfolder Hne Hlist Htk Hone Hload.
  assert (Hrun :
            check_and_display_excel_file host join p
            = (Returned tt,
               {| selector :=
                    let labelled :=
                      run_command
                        (LabelConfigText ("Excel File: " ++ excel_file)%string)
                        (selector p) in
                    let filled :=
                      run_command (ComboSetValues (sheetnames workbook))
                                  labelled in
                    match sheetnames workbook with
                    | [] => filled
                    | _ :: _ => run_command (ComboCurrent 0) filled
                    end;
                  events :=
                    ((events p ++ [Listdir folder])
                       ++ [LoadWorkbook (join folder excel_file) true])
                      ++ [CloseWorkbook (join folder excel_file)] |})).
  { rewrite (check_and_display_lists host join p folder Hfolder Hne),
      Hlist, Hone.
    unfold bind at 1. rewrite tk_done by (auto; discriminate).
    unfold bind at 1, open_workbook, bind at 1, lift. rewrite Hload.
    unfold bind at 1, emit, modify, ret at 1.
    unfold bind at 1. rewrite tk_done by (auto; discriminate).
    unfold bind at 1, close_workbook, emit, modify.
    destruct (sheetnames workbook) as [|first_sheet sheets] eqn:Hsheets.
    - reflexivity.
    - rewrite tk_done; [reflexivity | auto |].
      intros index Hindex. injection Hindex as <-. simpl. lia. }
  rewrite Hrun. cbn [fst snd selector].
  destruct (sheetnames workbook); repeat split.
Qed.

(** X8. A name starting with [~$] anywhere in the listing changes nothing:
    the files found are those found without it. *)
Theorem excel_files_in_ignores_lock_files
    (before after : list string) (lock : string) :
  startswith lock "~$" = true ->
  excel_files_in (before ++ lock :: after) = excel_files_in (before ++ after).
Proof.
  intros Hlock. unfold excel_files_in. rewrite !filter_app. cbn [filter].
  unfold qualifies at 2. rewrite Hlock, andb_false_r. reflexivity.
Qed.


End LookupMore.

Lemma check_and_display_shows_first_sheet_witness :
  fst (check_and_display_excel_file (host_data tcl_ok) posix_join
         (process_at (Some "/data/a"))) = Returned tt
  /\ sheet_text
       (selector (snd (check_and_display_excel_file (host_data tcl_ok)
                         posix_join (process_at (Some "/data/a")))))
     = match sheetnames {| sheetnames := ["Summary"; "Data"] |} with
       | [] => sheet_text (selector (process_at (Some "/data/a")))
       | first_sheet :: _ => first_sheet
       end
  /\ sheet_values
       (selector (snd (check_and_display_excel_file (host_data tcl_ok)
                         posix_join (process_at (Some "/data/a")))))
     = sheetnames {| sheetnames := ["Summary"; "Data"] |}.
Proof.
  apply (check_and_display_shows_first_sheet (host_data tcl_ok) posix_join
           (process_at (Some "/data/a")) "/data/a"
           ["report.xlsx"; "~$report.xlsx"; "notes.txt"] "report.xlsx"
           {| sheetnames := ["Summary"; "Data"] |}).
  - reflexivity.
  - discriminate.
  - reflexivity.
  - intros c. reflexivity.
  - reflexivity.
  - reflexivity.
Defined.

Lemma excel_files_in_ignores_lock_files_witness :
  excel_files_in (["report.xlsx"] ++ "~$report.xlsx" :: ["notes.txt"])
  = excel_files_in (["report.xlsx"] ++ ["notes.txt"]).
Proof.
  exact (excel_files_in_ignores_lock_files ["report.xlsx"] ["notes.txt"]
           "~$report.xlsx" eq_refl).
Defined.


(** ** The window: start-up and folder selection *)

Section AppFacts.

Variable fs : FileSystem.
Variable host : Host.
Variable join : string -> string -> string.
Variable strip : string -> string.
Variable os_path_isdir : string -> bool.

(** A lookup with a folder path set lists that folder first and keeps
    the path. *)
Lemma check_and_display_lists_first (p : Process) (folder : string) :
  folder_path (selector p) = Some folder -> folder <> "" ->
  folder_path (selector (snd (check_and_display_excel_file host join p)))
  = Some folder
  /\ exists evs,
       events (snd (check_and_display_excel_file host join p))
       = events p ++ Listdir folder :: evs.
Proof.
  intros Hfolder Hne.
  rewrite (check_and_display_lists host join p folder Hfolder Hne).
  destruct (os_listdir host folder) as [names | e].
  2:{ split; [exact Hfolder | exists []; reflexivity]. }
  destruct (excel_files_in names) as [|excel_file [|other rest]];
    unfold bind, tk, open_workbook, close_workbook, emit, update_selector,
      modify, lift, ret, get, bind;
    repeat match goal with
      | |- context [match tcl_error host ?c with _ => _ end] =>
          destruct (tcl_error host c)
      | |- context [match load_workbook host ?x with _ => _ end] =>
          destruct (load_workbook host x)
      | |- context [match sheetnames ?w with _ => _ end] =>
          destruct (sheetnames w)
      end;
    cbn; (split; [exact Hfolder|]); rewrite <- ?app_assoc; cbn;
    eexists; reflexivity.
Qed.

(** [update_folder] is the lookup run with the stripped path stored. *)
Lemma update_folder_stores (path : string) (p : Process) :
  update_folder host join strip path p
  = check_and_display_excel_file host join
      {| selector :=
           {| folder_path := Some (strip path);
              excel_file_label := excel_file_label (selector p);
              sheet_values := sheet_values (selector p);
              sheet_text := sheet_text (selector p) |};
         events := events p |}.
Proof. reflexivity. Qed.

(** X10. [update_folder] with a path that strips to nothing stores the empty
    path and stops there: label, sheet list and shown sheet stay what
    they were, and the folder is not listed. *)
Theorem update_folder_blank (path : string) (p : Process) :
  strip path = "" ->
  update_folder host join strip path p
  = (Returned tt,
     {| selector :=
          {| folder_path := Some "";
             excel_file_label := excel_file_label (selector p);
             sheet_values := sheet_values (selector p);
             sheet_text := sheet_text (selector p) |};
        events := events p |}).
Proof.
  intros Hblank. rewrite update_folder_stores, Hblank.
  apply check_and_display_guard. right. reflexivity.
Qed.

(** X11. [on_folder_selected] looks up the stripped text of the folder
    combobox. When that is not a folder nothing changes at all: the
    selector keeps the file and sheets of the folder looked up before.
    When it is a folder, the path stored and the folder listed are that
    very stripped text (the path is stripped a second time by
    [update_folder], to no effect), and the folder combobox is left
    alone. *)
Theorem on_folder_selected_looks_up_stripped_text (app : MainApp) :
  (forall s, strip (strip s) = strip s) ->
  (os_path_isdir (strip (combo_text (folder_combobox app))) = false ->
   on_folder_selected host join strip os_path_isdir app = (Returned tt, app))
  /\ (os_path_isdir (strip (combo_text (folder_combobox app))) = true ->
      strip (combo_text (folder_combobox app)) <> "" ->
      folder_combobox
        (snd (on_folder_selected host join strip os_path_isdir app))
      = folder_combobox app
      /\ folder_path
           (selector
              (excel_selector
                 (snd (on_folder_selected host join strip os_path_isdir app))))
         = Some (strip (combo_text (folder_combobox app)))
      /\ exists evs,
           events
             (excel_selector
                (snd (on_folder_selected host join strip os_path_isdir app)))
           = events (excel_selector app)
               ++ Listdir (strip (combo_text (folder_combobox app))) :: evs).
Proof.
  intros Hidem. unfold on_folder_selected. split.
  - intros Hnot. rewrite Hnot. reflexivity.
  - intros Hdir Hne. rewrite Hdir, update_folder_stores, Hidem.
    set (stored :=
           {| selector :=
                {| folder_path := Some (strip (combo_text (folder_combobox app)));
                   excel_file_label :=
                     excel_file_label (selector (excel_selector app));
                   sheet_values := sheet_values (selector (excel_selector app));
                   sheet_text := sheet_text (selector (excel_selector app)) |};
              events := events (excel_selector app) |}).
    destruct (check_and_display_lists_first stored
                (strip (combo_text (folder_combobox app))) eq_refl Hne)
      as [Hpath [evs Hevs]].
    destruct (check_and_display_excel_file host join stored) as [result after].
    cbn [snd folder_combobox excel_selector] in *.
    split; [reflexivity|]. split; [exact Hpath|]. exists evs. exact Hevs.
Qed.

(** X12. Start-up with the root folder missing: [MainApp.__init__] is left by
    the [ValueError] of the scan; no window data is built and no
    directory is listed. *)
Theorem MainApp_init_missing_root (depth : nat) (calls : list syscall) :
  os_path_exists fs root_folder = false ->
  MainApp_init fs join depth calls
  = (Raised (PyExn (ValueError (not_found_prefix ++ root_folder)%string)),
     calls ++ [SysExists root_folder]).
Proof.
  intros Hmissing. unfold MainApp_init, bind at 1, get_folder_structure.
  unfold bind, log, modify. rewrite Hmissing. reflexivity.
Qed.

(** X13. Start-up on a coherent root folder: the folder combobox holds, in
    the order the scan listed them, exactly the directories the scan
    listed below the root; it shows nothing yet, and the selector is as
    [ExcelSheetSelector.__init__] leaves it. *)
Theorem MainApp_init_lists_scanned_folders (depth : nat) (calls : list syscall) :
  os_path_exists fs root_folder = true ->
  coherent fs join depth root_folder = true ->
  exists app,
    MainApp_init fs join depth calls
    = (Returned app,
       calls ++ SysExists root_folder
         :: map SysScandir
              (root_folder :: combo_values (folder_combobox app)))
    /\ combo_values (folder_combobox app)
       = traverse_structure join (tree_of fs depth root_folder) root_folder
    /\ combo_text (folder_combobox app) = ""
    /\ excel_selector app = process_at None.
Proof.
  intros Hexists Hcoherent.
  exists {| folder_combobox :=
              FolderComboBox_init join (tree_of fs depth root_folder)
                                  root_folder;
            excel_selector := process_at None |}.
  split.
  - unfold MainApp_init, bind at 1, get_folder_structure.
    unfold bind at 1, log, modify. rewrite Hexists. cbn [negb].
    rewrite (build_structure_tree_of fs join depth _ _ Hcoherent).
    unfold ret. rewrite <- app_assoc. reflexivity.
  - repeat split.
Qed.

End AppFacts.

Lemma update_folder_blank_witness :
  update_folder (host_data tcl_ok) posix_join py_strip "   "
    (process_at (Some "/data/a"))
  = (Returned tt,
     {| selector :=
          {| folder_path := Some "";
             excel_file_label :=
               excel_file_label (selector (process_at (Some "/data/a")));
             sheet_values := sheet_values (selector (process_at (Some "/data/a")));
             sheet_text := sheet_text (selector (process_at (Some "/data/a"))) |};
        events := events (process_at (Some "/data/a")) |}).
Proof.
  exact (update_folder_blank (host_data tcl_ok) posix_join py_strip "   "
           (process_at (Some "/data/a")) eq_refl).
Defined.

Lemma on_folder_selected_looks_up_stripped_text_witness :
  (isdir_data (py_strip (combo_text (folder_combobox (app_showing " /data/a "))))
   = false ->
   on_folder_selected (host_data tcl_ok) posix_join py_strip isdir_data
     (app_showing " /data/a ")
   = (Returned tt, app_showing " /data/a "))
  /\ (isdir_data (py_strip (combo_text (folder_combobox (app_showing " /data/a "))))
      = true ->
      py_strip (combo_text (folder_combobox (app_showing " /data/a "))) <> "" ->
      folder_combobox
        (snd (on_folder_selected (host_data tcl_ok) posix_join py_strip
                isdir_data (app_showing " /data/a ")))
      = folder_combobox (app_showing " /data/a ")
      /\ folder_path
           (selector
              (excel_selector
                 (snd (on_folder_selected (host_data tcl_ok) posix_join
                         py_strip isdir_data (app_showing " /data/a ")))))
         = Some (py_strip (combo_text (folder_combobox (app_showing " /data/a "))))
      /\ exists evs,
           events
             (excel_selector
                (snd (on_folder_selected (host_data tcl_ok) posix_join
                        py_strip isdir_data (app_showing " /data/a "))))
           = events (excel_selector (app_showing " /data/a "))
               ++ Listdir
                    (py_strip
                       (combo_text (folder_combobox (app_showing " /data/a "))))
                  :: evs).
Proof.
  exact (on_folder_selected_looks_up_stripped_text (host_data tcl_ok)
           posix_join py_strip isdir_data (app_showing " /data/a ")
           py_strip_idempotent).
Defined.

Example on_folder_selected_padded_path :
  on_folder_selected (host_data tcl_ok) posix_join py_strip isdir_data
    (app_showing " /data/a ")
  = (Returned tt,
     {| folder_combobox := folder_combobox (app_showing " /data/a ");
        excel_selector :=
          {| selector := {| folder_path := Some "/data/a";
                            excel_file_label := "Excel File: report.xlsx";
                            sheet_values := ["Summary"; "Data"];
                            sheet_text := "Summary" |};
             events := [Listdir "/data/a";
                        LoadWorkbook "/data/a/report.xlsx" true;
                        CloseWorkbook "/data/a/report.xlsx"] |} |}).
Proof. reflexivity. Qed.

Lemma MainApp_init_missing_root_witness :
  MainApp_init fs_data posix_join 3 []
  = (Raised (PyExn (ValueError (not_found_prefix ++ root_folder)%string)),
     [] ++ [SysExists root_folder]).
Proof.
  exact (MainApp_init_missing_root fs_data posix_join 3 [] eq_refl).
Defined.

Lemma MainApp_init_lists_scanned_folders_witness :
  exists app,
    MainApp_init fs_work posix_join 3 []
    = (Returned app,
       [] ++ SysExists root_folder
         :: map SysScandir
              (root_folder :: combo_values (folder_combobox app)))
    /\ combo_values (folder_combobox app)
       = traverse_structure posix_join (tree_of fs_work 3 root_folder)
                            root_folder
    /\ combo_text (folder_combobox app) = ""
    /\ excel_selector app = process_at None.
Proof.
  exact (MainApp_init_lists_scanned_folders fs_work posix_join 3 []
           eq_refl eq_refl).
Defined.

Example MainApp_init_fs_work :
  fst (MainApp_init fs_work posix_join 3 [])
  = Returned
      {| folder_combobox :=
           {| combo_structure :=
                Node [("in", Node [("2024", Node [])]); ("out", Node [])];
              combo_root_path := "C:\\work\\output";
              combo_values := ["C:\\work\\output/in";
                               "C:\\work\\output/in/2024";
                               "C:\\work\\output/out"];
              combo_text := "" |};
         excel_selector := process_at None |}.
Proof. reflexivity. Qed.

(** ** The mapping of a walk has distinct keys *)

Lemma dict_set_keys_NoDup (V : Type) (d : list (string * V)) (k : string) (v : V) :
  NoDup (dict_keys d) -> NoDup (dict_keys (dict_set d k v)).
Proof.
  induction d as [|[k' v'] d IH]; intros Hnodup.
  - simpl. constructor; [intros [] | constructor].
  - cbn [dict_set]. unfold dict_keys in Hnodup. cbn [map fst] in Hnodup.
    inversion Hnodup as [|x l Hfresh Hrest]; subst.
    destruct (String.eqb_spec k' k) as [-> | Hne].
    + exact Hnodup.
    + change (NoDup (k' :: dict_keys (dict_set d k v))).
      constructor; [|apply IH; exact Hrest].
      rewrite dict_keys_dict_set. intros [Heq | Hin]; [congruence|].
      apply Hfresh. exact Hin.
Qed.

Section UniqueKeys.

Variable fs : FileSystem.

Lemma scan_entries_unique_keys (recurse : string -> Scan FolderTree) :
  (forall path calls tree calls',
      recurse path calls = (Returned tree, calls') ->
      unique_keys tree = true) ->
  forall todo structure calls result calls',
    scan_entries recurse todo structure calls = (Returned result, calls') ->
    NoDup (dict_keys structure) ->
    Forall (fun item => unique_keys (snd item) = true) structure ->
    NoDup (dict_keys result)
    /\ Forall (fun item => unique_keys (snd item) = true) result.
Proof.
  intros Hrec. induction todo as [|entry todo IH];
    intros structure calls result calls' Hrun Hnodup Hsubs.
  - injection Hrun as <- _. split; assumption.
  - rewrite scan_entries_step in Hrun.
    destruct (entry_is_dir entry) as [[|]|e0];
      [| apply (IH _ _ _ _ Hrun); assumption | discriminate].
    destruct (recurse (entry_path entry) calls) as [[sub|e] calls1] eqn:Hsub;
      [|discriminate].
    apply (IH _ _ _ _ Hrun).
    + apply dict_set_keys_NoDup. exact Hnodup.
    + apply Forall_dict_set; [exact Hsubs|]. exact (Hrec _ _ _ _ Hsub).
Qed.

Lemma build_structure_unique_keys (depth : nat) :
  forall path calls tree calls',
    build_structure fs depth path calls = (Returned tree, calls') ->
    unique_keys tree = true.
Proof.
  induction depth as [|depth IH]; intros path calls tree calls' Hrun.
  - discriminate.
  - rewrite build_structure_step in Hrun. unfold bind at 1 in Hrun.
    destruct (log (SysScandir path) calls) as [[[]|e0] calls0]; [|discriminate].
    unfold bind at 1 in Hrun.
    destruct (lift_os (os_scandir fs path) calls0) as [[entries|e1] calls1];
      [|discriminate].
    unfold bind in Hrun.
    destruct (scan_entries (build_structure fs depth) entries [] calls1)
      as [[structure|e2] calls2] eqn:Hloop; [|discriminate].
    injection Hrun as <- _.
    destruct (scan_entries_unique_keys _ IH _ _ _ _ _ Hloop)
      as [Hnodup Hsubs]; [constructor | constructor |].
    apply unique_keys_Node. split; assumption.
Qed.

(** X14. Whatever the listings hold, the mapping a walk returns has distinct
    keys at every level, as a [dict] has. *)
Theorem get_folder_structure_unique_keys
    (depth : nat) (root_path : string) (calls calls' : list syscall)
    (tree : FolderTree) :
  get_folder_structure fs depth root_path calls = (Returned tree, calls') ->
  unique_keys tree = true.
Proof.
  unfold get_folder_structure, bind, log, modify.
  destruct (negb (os_path_exists fs root_path)); [discriminate|].
  apply build_structure_unique_keys.
Qed.

End UniqueKeys.

Lemma get_folder_structure_unique_keys_witness :
  unique_keys (Node [("a", Node [("x", Node [])]); ("b", Node [])]) = true.
Proof.
  exact (get_folder_structure_unique_keys fs_data 3 "/data" [] _ _ eq_refl).
Defined.

(** ** A folder and what is below it are listed together *)

Lemma flat_map_split_at (A B : Type) (f : A -> list B) (l : list A)
    (c : nat) (x : A) :
  nth_error l c = Some x ->
  flat_map f l
  = flat_map f (firstn c l) ++ f x ++ flat_map f (skipn (S c) l).
Proof.
  revert c. induction l as [|y l IH]; intros c Hc.
  - destruct c; discriminate.
  - destruct c as [|c]; simpl in Hc |- *.
    + injection Hc as ->. reflexivity.
    + rewrite (IH c Hc), <- app_assoc. reflexivity.
Qed.

(** X15. The folders below a folder are listed right after it and together:
    the flattened list is what comes before the folder, the folder's
    path, the flattening of its sub-mapping from that path, and the rest,
    the folder's path standing at the folder's index. *)
Theorem traverse_structure_subtree_block
    (join : string -> string -> string) (pos : list nat) :
  forall structure parent_path i full_path sub,
    emit_index structure pos = Some i ->
    locate join structure parent_path pos = Some (full_path, sub) ->
    exists before after,
      traverse_structure join structure parent_path
      = before ++ (full_path :: traverse_structure join sub full_path) ++ after
      /\ length before = i.
Proof.
  induction pos as [|c rest IH];
    intros [entries] parent_path i full_path sub Hi Hloc.
  - discriminate.
  - rewrite traverse_structure_blocks.
    cbn [locate entries_of] in Hloc.
    destruct (nth_error entries c) as [entry|] eqn:Hc; [|discriminate].
    rewrite (flat_map_split_at _ _ (emitted_block join parent_path) _ _ _ Hc).
    assert (Hbefore :
              length (flat_map (emitted_block join parent_path)
                               (firstn c entries))
              = emitted_before (Node entries) c).
    { rewrite length_flat_map. symmetry. apply emitted_before_blocks. }
    destruct rest as [|c' rest'].
    + rewrite emit_index_child in Hi. cbn [entries_of] in Hi.
      rewrite Hc in Hi. some_inj Hi. injection Hloc as <- <-.
      eexists. eexists. split; [reflexivity | exact Hbefore].
    + apply emit_index_descend in Hi; [|discriminate].
      destruct Hi as (entry' & k & Hc' & Hk & ->).
      cbn [entries_of] in Hc'. rewrite Hc in Hc'. injection Hc' as <-.
      destruct (IH _ _ _ _ _ Hk Hloc) as (before & after & Hsplit & Hlen).
      exists (flat_map (emitted_block join parent_path) (firstn c entries)
                ++ join parent_path (fst entry) :: before).
      exists (after
                ++ flat_map (emitted_block join parent_path)
                     (skipn (S c) entries)).
      split.
      * unfold emitted_block at 2. rewrite Hsplit.
        repeat first [rewrite <- app_assoc | rewrite <- app_comm_cons].
        reflexivity.
      * rewrite length_app. cbn [length]. rewrite Hbefore, Hlen. lia.
Qed.

Lemma traverse_structure_subtree_block_witness :
  exists before after,
    traverse_structure posix_join tree_A_B_C "/root"
    = before
        ++ ("/root/A" :: traverse_structure posix_join
                           (Node [("B", Node [])]) "/root/A")
        ++ after
    /\ length before = 0.
Proof.
  exact (traverse_structure_subtree_block posix_join [0] tree_A_B_C "/root" 0
           "/root/A" (Node [("B", Node [])]) eq_refl eq_refl).
Defined.

(** ** Looking up twice *)

Section LookupTwice.

Variable host : Host.
Variable join : string -> string -> string.

(** X16. A lookup run again right after a lookup ends as the first did and
    leaves the selector as the first left it: nothing is kept from one
    run to the next but what the widgets show, and the second run
    rebuilds that from the folder. *)
Theorem check_and_display_twice (p : Process) :
  fst (check_and_display_excel_file host join
         (snd (check_and_display_excel_file host join p)))
  = fst (check_and_display_excel_file host join p)
  /\ selector
       (snd (check_and_display_excel_file host join
               (snd (check_and_display_excel_file host join p))))
     = selector (snd (check_and_display_excel_file host join p)).
Proof.
  destruct (folder_path (selector p)) as [folder|] eqn:Hfolder.
  2:{ rewrite (check_and_display_guard host join p) by auto.
      cbn [snd]. rewrite (check_and_display_guard host join p) by auto.
      split; reflexivity. }
  destruct (string_dec folder "") as [-> | Hne].
  { rewrite (check_and_display_guard host join p) by auto.
    cbn [snd]. rewrite (check_and_display_guard host join p) by auto.
    split; reflexivity. }
  rewrite (check_and_display_lists host join p folder Hfolder Hne).
  destruct (os_listdir host folder) as [names | e] eqn:Hlist.
  2:{ cbn [snd fst].
      match goal with
      | |- context [check_and_display_excel_file host join ?q] =>
          rewrite (check_and_display_lists host join q folder Hfolder Hne)
      end.
      rewrite Hlist. split; reflexivity. }
  destruct (excel_files_in names) as [|excel_file [|other rest]] eqn:Hfiles;
    unfold bind, tk, open_workbook, close_workbook, emit, update_selector,
      modify, lift, ret, get, bind;
    repeat match goal with
      | |- context [match tcl_error host ?c with _ => _ end] =>
          destruct (tcl_error host c) eqn:?
      | |- context [match load_workbook host ?x with _ => _ end] =>
          destruct (load_workbook host x) eqn:?
      | |- context [match sheetnames ?w with _ => _ end] =>
          destruct (sheetnames w) eqn:?
      end;
    cbn [fst snd];
    match goal with
    | |- context [check_and_display_excel_file host join ?q] =>
        rewrite (check_and_display_lists host join q folder)
          by (first [exact Hne | cbn; exact Hfolder])
    end;
    rewrite Hlist, Hfiles;
    unfold bind, tk, open_workbook, close_workbook, emit, update_selector,
      modify, lift, ret, get, bind;
    repeat match goal with
      | H : tcl_error host ?c = _ |- context [tcl_error host ?c] => rewrite H
      | H : load_workbook host ?x = _ |- context [load_workbook host ?x] =>
          rewrite H
      | H : sheetnames ?w = _ |- context [sheetnames ?w] => rewrite H
      end;
    cbn; split; reflexivity.
Qed.

End LookupTwice.

(** ** An entry that cannot be examined *)

Lemma scan_entries_is_dir_raises (recurse : string -> Scan FolderTree)
    (before after : list DirEntry) (entry : DirEntry) (e : exn) :
  forallb (fun earlier => negb (is_directory earlier) && is_dir_answers earlier)
          before = true ->
  entry_is_dir entry = Raised e ->
  forall structure calls,
    scan_entries recurse (before ++ entry :: after) structure calls
    = (Raised (PyExn e), calls).
Proof.
  intros Hbefore Hraises. induction before as [|earlier before IH];
    intros structure calls; cbn [app]; rewrite scan_entries_step.
  - rewrite Hraises. reflexivity.
  - cbn [forallb] in Hbefore. apply andb_true_iff in Hbefore.
    destruct Hbefore as [Hearlier Hbefore].
    unfold is_directory, is_dir_answers in Hearlier.
    destruct (entry_is_dir earlier) as [[|]|e0]; try discriminate.
    apply IH. exact Hbefore.
Qed.

(** X17. When [entry.is_dir()] raises on an entry of the root's listing
    and the entries listed before it are not directories, the walk is
    left by that exception: it has tested the root and listed it, and
    nothing else. *)
Theorem get_folder_structure_is_dir_raises
    (fs : FileSystem) (depth : nat) (root_path : string)
    (calls : list syscall) (before after : list DirEntry)
    (entry : DirEntry) (e : exn) :
  os_path_exists fs root_path = true ->
  os_scandir fs root_path = Returned (before ++ entry :: after) ->
  forallb (fun earlier => negb (is_directory earlier) && is_dir_answers earlier)
          before = true ->
  entry_is_dir entry = Raised e ->
  get_folder_structure fs (S depth) root_path calls
  = (Raised (PyExn e), calls ++ [SysExists root_path; SysScandir root_path]).
Proof.
  intros Hexists Hscan Hbefore Hraises.
  unfold get_folder_structure, bind at 1, log, modify. rewrite Hexists.
  cbn [negb build_structure]. unfold bind at 1, log, modify.
  unfold bind at 1, lift_os. rewrite Hscan. unfold ret at 1.
  unfold bind at 1.
  rewrite (scan_entries_is_dir_raises _ before after entry e Hbefore Hraises).
  rewrite <- app_assoc. reflexivity.
Qed.

Lemma get_folder_structure_is_dir_raises_witness :
  get_folder_structure fs_loop_first 3 "/mnt" []
  = (Raised (PyExn (OSError "/mnt/self")),
     [] ++ [SysExists "/mnt"; SysScandir "/mnt"]).
Proof.
  exact (get_folder_structure_is_dir_raises fs_loop_first 2 "/mnt" []
           [ {| entry_name := "notes.txt"; entry_path := "/mnt/notes.txt";
                entry_is_dir := Returned false |} ]
           [ {| entry_name := "disk"; entry_path := "/mnt/disk";
                entry_is_dir := Returned true |} ]
           {| entry_name := "self"; entry_path := "/mnt/self";
              entry_is_dir := Raised (OSError "/mnt/self") |}
           (OSError "/mnt/self") eq_refl eq_refl eq_refl eq_refl).
Defined.
